(** * PeakTech backend: contact intake, project portfolio CRUD, auth gate

    A shallow embedding of the Express/Mongoose code of the repository:
    - [server/models/Project.js], [server/controllers/projectController.js],
      [server/routes/projectRoutes.js] and the image upload middleware
      (src/main.js);
    - [server/middleware/error.js], [server/utils/errorResponse.js],
      [server/middleware/auth.js] (src/unnamed/part_000);
    - [server/controllers/contactController.js], [server/models/Contact.js],
      [server/routes/contactRoutes.js], [server/utils/email.js]
      (src/unnamed/part_001).

    Strings are sequences of 8-bit code units (the Latin-1 part of a JS
    string); on that range [toLowerCase], [trim] and the character classes
    of the regular expressions act unit by unit, as written below.
    MongoDB collections are finite maps from ObjectIds to documents.
    Handlers are functions from the environment of one request (clock,
    token verifier, mail transport), the store and the request to a step of
    the Express chain. Where the code relies on its libraries, their
    behaviour is written out as that of Mongoose 5 (setters, document and
    update validators, the order of [err.errors]) and of multer 1
    ([single], the file filter and the size limit). *)

From Stdlib Require Import ZArith Ascii String DecimalString.
From stdpp Require Import base option list gmap strings.

Local Open Scope string_scope.
Local Open Scope Z_scope.

(** ** JavaScript string primitives *)

Module JsString.

Definition code (c : ascii) : Z := Z.of_N (N_of_ascii c).

Definition in_range (lo hi : Z) (c : ascii) : bool :=
  (lo <=? code c) && (code c <=? hi).

(** [\w] of a JS regular expression: [A-Za-z0-9_]. *)
Definition is_word (c : ascii) : bool :=
  in_range 97 122 c || in_range 65 90 c || in_range 48 57 c
  || (code c =? 95).

(** The literal space of [/[^\w ]+/] and [/ +/]. *)
Definition is_space (c : ascii) : bool := code c =? 32.

(** White space and line terminators stripped by [String.prototype.trim]
    (TAB, LF, VT, FF, CR, SP, NBSP). *)
Definition is_trim_space (c : ascii) : bool :=
  in_range 9 13 c || (code c =? 32) || (code c =? 160).

(** [toLowerCase] on one unit: A-Z, and the upper-case letters of
    Latin-1 (U+00C0..U+00DE without the multiplication sign U+00D7). *)
Definition lower_unit (c : ascii) : ascii :=
  if in_range 65 90 c
     || (in_range 192 222 c && negb (code c =? 215))
  then ascii_of_N (Z.to_N (code c + 32))
  else c.

Fixpoint toLowerCase (s : string) : string :=
  match s with
  | EmptyString => EmptyString
  | String c s' => String (lower_unit c) (toLowerCase s')
  end.

Definition is_empty (s : string) : bool :=
  match s with EmptyString => true | _ => false end.

Fixpoint trimStart (s : string) : string :=
  match s with
  | EmptyString => EmptyString
  | String c s' => if is_trim_space c then trimStart s' else s
  end.

Fixpoint trimEnd (s : string) : string :=
  match s with
  | EmptyString => EmptyString
  | String c s' =>
      let r := trimEnd s' in
      if is_trim_space c && is_empty r then EmptyString else String c r
  end.

Definition trim (s : string) : string := trimEnd (trimStart s).

(** [s.replace(/[cls]+/g, rep)]: the scan goes left to right; a unit of
    the class that follows a unit outside of it (or the start) opens a
    match, the match extends over the whole run of class units, and the
    run is replaced by [rep]. [in_match] tells that the previous unit
    belongs to the match being consumed. *)
Fixpoint replace_runs (cls : ascii -> bool) (rep : string)
         (in_match : bool) (s : string) : string :=
  match s with
  | EmptyString => EmptyString
  | String c s' =>
      if cls c then
        if in_match then replace_runs cls rep true s'
        else rep +:+ replace_runs cls rep true s'
      else String c (replace_runs cls rep false s')
  end.

Definition replace_all_plus (cls : ascii -> bool) (rep s : string) : string :=
  replace_runs cls rep false s.

(** [s.startsWith(p)] *)
Definition startsWith (s p : string) : bool := String.prefix p s.

(** [s.split(' ')]: the pieces between single spaces. *)
Fixpoint split_space_aux (cur : string) (s : string) : list string :=
  match s with
  | EmptyString => [cur]
  | String c s' =>
      if is_space c then cur :: split_space_aux EmptyString s'
      else split_space_aux (cur +:+ String c EmptyString) s'
  end.

Definition split_space (s : string) : list string :=
  split_space_aux EmptyString s.

(** [arr.join(',')], which is also what [String(arr)] gives. *)
Fixpoint join_comma (l : list string) : string :=
  match l with
  | [] => EmptyString
  | [x] => x
  | x :: rest => x +:+ "," +:+ join_comma rest
  end.

(** Decimal rendering of an integer inside a template literal. *)
Definition of_Z (z : Z) : string := NilZero.string_of_int (Z.to_int z).

(** [[...s].every(p)] on the units of a string. *)
Fixpoint every (p : ascii -> bool) (s : string) : bool :=
  match s with
  | EmptyString => true
  | String c s' => p c && every p s'
  end.

End JsString.

(** ** Regular expressions of the source, matched by derivatives

    The patterns of the source use only classes, concatenation,
    alternation and repetition, so [RegExp.prototype.test] is membership
    in the language of the pattern: of the whole input for a pattern
    anchored with [^] and [$], of some substring otherwise. *)

Module Regex.

Inductive regex : Type :=
| Void
| Eps
| Class (p : ascii -> bool)
| Cat (r1 r2 : regex)
| Alt (r1 r2 : regex)
| Star (r : regex).

Fixpoint nullable (r : regex) : bool :=
  match r with
  | Void => false
  | Eps => true
  | Class _ => false
  | Cat r1 r2 => nullable r1 && nullable r2
  | Alt r1 r2 => nullable r1 || nullable r2
  | Star _ => true
  end.

Definition mk_cat (r1 r2 : regex) : regex :=
  match r1, r2 with
  | Void, _ => Void
  | _, Void => Void
  | Eps, _ => r2
  | _, _ => Cat r1 r2
  end.

Definition mk_alt (r1 r2 : regex) : regex :=
  match r1, r2 with
  | Void, _ => r2
  | _, Void => r1
  | _, _ => Alt r1 r2
  end.

Fixpoint deriv (c : ascii) (r : regex) : regex :=
  match r with
  | Void => Void
  | Eps => Void
  | Class p => if p c then Eps else Void
  | Cat r1 r2 =>
      if nullable r1
      then mk_alt (mk_cat (deriv c r1) r2) (deriv c r2)
      else mk_cat (deriv c r1) r2
  | Alt r1 r2 => mk_alt (deriv c r1) (deriv c r2)
  | Star r1 => mk_cat (deriv c r1) (Star r1)
  end.

Fixpoint matches (r : regex) (s : string) : bool :=
  match s with
  | EmptyString => nullable r
  | String c s' => matches (deriv c r) s'
  end.

Definition lit (c : ascii) : regex := Class (fun x => bool_decide (x = c)).

Fixpoint str (s : string) : regex :=
  match s with
  | EmptyString => Eps
  | String c s' => Cat (lit c) (str s')
  end.

Definition plus (r : regex) : regex := Cat r (Star r).
Definition opt (r : regex) : regex := Alt r Eps.
Definition any : regex := Class (fun _ => true).

(** The language of a pattern, which [matches] decides. *)
Inductive denotes : regex -> string -> Prop :=
| denotes_eps : denotes Eps ""
| denotes_class (p : ascii -> bool) (c : ascii) :
    p c = true -> denotes (Class p) (String c "")
| denotes_cat (r1 r2 : regex) (s1 s2 : string) :
    denotes r1 s1 -> denotes r2 s2 -> denotes (Cat r1 r2) (s1 +:+ s2)
| denotes_alt_l (r1 r2 : regex) (s : string) :
    denotes r1 s -> denotes (Alt r1 r2) s
| denotes_alt_r (r1 r2 : regex) (s : string) :
    denotes r2 s -> denotes (Alt r1 r2) s
| denotes_star_nil (r : regex) : denotes (Star r) ""
| denotes_star_app (r : regex) (s1 s2 : string) :
    denotes r s1 -> denotes (Star r) s2 -> denotes (Star r) (s1 +:+ s2).

(** [/^r$/.test(s)] *)
Definition test_anchored (r : regex) (s : string) : bool := matches r s.

(** [/r/.test(s)]: some substring of [s] matches. *)
Definition test (r : regex) (s : string) : bool :=
  matches (Cat (Star any) (Cat r (Star any))) s.

End Regex.

(** ** [path.extname] of Node (POSIX flavour), used by the upload filter

    The scan runs from the last unit to the first, as in Node: trailing
    slashes are skipped, the first slash met after a name unit ends the
    scan, [startDot] is the last dot of the final path segment and
    [preDotState] tells whether anything other than dots precedes it. *)

Module Path.

Record scan : Type := Scan {
  startDot : Z;
  startPart : Z;
  end_ : Z;
  matchedSlash : bool;
  preDotState : Z;
  stopped : bool
}.

Definition scan_init : scan := Scan (-1) 0 (-1) true 0 false.

Definition scan_step (st : scan) (i : Z) (c : ascii) : scan :=
  if stopped st then st
  else if JsString.code c =? 47 then
    if negb (matchedSlash st)
    then Scan (startDot st) (i + 1) (end_ st) (matchedSlash st)
              (preDotState st) true
    else st
  else
    let e := if end_ st =? -1 then i + 1 else end_ st in
    let ms := if end_ st =? -1 then false else matchedSlash st in
    if JsString.code c =? 46 then
      if startDot st =? -1
      then Scan i (startPart st) e ms (preDotState st) false
      else if negb (preDotState st =? 1)
           then Scan (startDot st) (startPart st) e ms 1 false
           else Scan (startDot st) (startPart st) e ms (preDotState st) false
    else if negb (startDot st =? -1)
         then Scan (startDot st) (startPart st) e ms (-1) false
         else Scan (startDot st) (startPart st) e ms (preDotState st) false.

(** The units of [s] paired with their indices, last unit first. *)
Fixpoint indexed_rev (i : Z) (s : string) (acc : list (Z * ascii))
  : list (Z * ascii) :=
  match s with
  | EmptyString => acc
  | String c s' => indexed_rev (i + 1) s' ((i, c) :: acc)
  end.

Definition scan_path (s : string) : scan :=
  fold_left (fun st ic => scan_step st (fst ic) (snd ic))
            (indexed_rev 0 s []) scan_init.

Definition slice (s : string) (from to : Z) : string :=
  String.substring (Z.to_nat from) (Z.to_nat (to - from)) s.

Definition extname (p : string) : string :=
  let st := scan_path p in
  if (startDot st =? -1) || (end_ st =? -1) || (preDotState st =? 0)
     || ((preDotState st =? 1) && (startDot st =? end_ st - 1)
         && (startDot st =? startPart st + 1))
  then EmptyString
  else slice p (startDot st) (end_ st).

End Path.

(** ** Documents of the three collections *)

Abbreviation ObjectId := positive (only parsing).

Module User.

(** The User/Admin schema of the implementation plan. *)
Record t : Type := Build {
  id : ObjectId;
  username : string;
  email : string;
  password : string;
  role : string;
  createdAt : Z;
  lastLogin : Z
}.

End User.

Module Contact.

Record t : Type := Build {
  id : ObjectId;
  firstName : string;
  lastName : string;
  email : string;
  company : option string;
  message : string;
  status : string;
  dateSubmitted : Z;
  lastUpdated : Z;
  createdAt : Z;
  updatedAt : Z
}.

End Contact.

Module Project.

Record testimonial : Type := Testimonial {
  quote : option string;
  name : option string;
  position : option string;
  company : option string;
  avatar : option string
}.

Record t : Type := Build {
  id : ObjectId;
  title : string;
  slug : string;
  client : string;
  description : string;
  shortDescription : string;
  categories : list string;
  technologies : list string;
  features : list string;
  thumbnailImage : string;
  galleryImages : list string;
  projectUrl : option string;
  testimonial_ : option testimonial;
  featured : bool;
  completionDate : option Z;
  createdBy : ObjectId;
  createdAt : Z;
  updatedAt : Z
}.

(** A request body for the Project routes: every schema path may be
    present or absent; paths outside the schema are dropped by Mongoose.
    The record stands for a JSON object whose keys come in the order of the
    schema. *)
Record payload : Type := Payload {
  b_title : option string;
  b_slug : option string;
  b_client : option string;
  b_description : option string;
  b_shortDescription : option string;
  b_categories : option (list string);
  b_technologies : option (list string);
  b_features : option (list string);
  b_thumbnailImage : option string;
  b_galleryImages : option (list string);
  b_projectUrl : option string;
  b_testimonial : option testimonial;
  b_featured : option bool;
  b_completionDate : option Z;
  b_createdBy : option ObjectId
}.

Definition empty_payload : payload :=
  Payload None None None None None None None None None None None None None
          None None.

End Project.

(** An outbound mail handed to [sendEmail]. *)
Record Email : Type := MkEmail {
  mail_to : string;
  mail_subject : string;
  mail_text : string
}.

(** The file part of a multipart body, as multer describes it:
    [fieldname] is the name of the form field that carries it,
    [originalname] the file name the client wrote (empty when the field was
    submitted without a file), [size] the number of bytes of its content. *)
Module File.

Record t : Type := Build {
  fieldname : string;
  originalname : string;
  mimetype : string;
  size : Z
}.

End File.

(** The persistent state: the three collections, the mails handed to the
    transport and the files written under [./public/uploads/projects/]. *)
Record Store : Type := MkStore {
  users : gmap positive User.t;
  projects : gmap positive Project.t;
  contacts : gmap positive Contact.t;
  outbox : list Email;
  uploads : list string
}.

(** What one request sees of the outside: [Date.now()], [jwt.verify] with
    the configured secret ([None] when it throws, the decoded [id]
    otherwise) and whether the transport accepts a mail. *)
Record Env : Type := MkEnv {
  now : Z;
  jwt_verify : string -> option ObjectId;
  smtp_accepts : Email -> bool
}.

(** ** Errors and responses *)

(** A thrown JS error: [name], [message], the driver's [code], the
    [statusCode] of an [ErrorResponse] and the messages of the [errors] of
    a Mongoose validation error. *)
Record JsError : Type := MkError {
  e_name : string;
  e_message : string;
  e_code : option Z;
  e_statusCode : option Z;
  e_errors : list string
}.

(** [new ErrorResponse(message, statusCode)] *)
Definition ErrorResponse (message : string) (statusCode : Z) : JsError :=
  MkError "Error" message None (Some statusCode) [].

Definition ValidationError (model : string) (msgs : list string) : JsError :=
  MkError "ValidationError"
          (model +:+ " validation failed: " +:+ JsString.join_comma msgs)
          None None msgs.

Definition CastError (value : string) : JsError :=
  MkError "CastError"
          ("Cast to ObjectId failed for value " +:+ value) None None [].

Definition DuplicateKeyError (index : string) : JsError :=
  MkError "MongoError"
          ("E11000 duplicate key error index: " +:+ index)
          (Some 11000) None [].

Definition TypeError (message : string) : JsError :=
  MkError "TypeError" message None None [].

Inductive Data : Type :=
| DNull
| DEmpty
| DProject (p : Project.t)
| DProjects (ps : list Project.t)
| DContact (c : Contact.t)
| DContacts (cs : list Contact.t)
| DFile (fileName filePath : string).

(** The JSON envelope sent with a status code. *)
Record Response : Type := MkResponse {
  status : Z;
  success : bool;
  data : option Data;
  count : option nat;
  error : option string;
  message : option string
}.

(** The [:id] route parameter: a string that casts to an ObjectId, one
    that does not, or none on a route without the parameter. *)
Inductive IdParam : Type :=
| WellFormed (k : ObjectId)
| Malformed (raw : string)
| Absent.

(** [req.user]: never assigned, or assigned the result of
    [User.findById], which is [null] when no document has the id. *)
Inductive UserSlot : Type :=
| Unset
| Resolved (u : option User.t).

Record Request (B : Type) : Type := MkRequest {
  authorization : option string;
  cookie_token : option string;
  param_id : IdParam;
  body : B;
  file : option File.t;
  user : UserSlot
}.

Arguments MkRequest {B}.
Arguments authorization {B}.
Arguments cookie_token {B}.
Arguments param_id {B}.
Arguments body {B}.
Arguments file {B}.
Arguments user {B}.

(** One handler of an Express chain either calls [next()], sends a
    response, fails (a throw, a rejected promise or [next(err)], which
    all reach the error middleware), or returns having done none of these. *)
Inductive Step (B : Type) : Type :=
| Next (req : Request B) (st : Store)
| Send (res : Response) (st : Store)
| Fail (err : JsError) (st : Store)
| Stall (st : Store).

Arguments Next {B}.
Arguments Send {B}.
Arguments Fail {B}.
Arguments Stall {B}.

Definition Handler (B : Type) : Type := Env -> Store -> Request B -> Step B.

(** What the client of a route observes: the response sent, or none when
    no handler of the chain sends one. *)
Inductive Outcome : Type :=
| Responded (res : Response)
| Unanswered.

(** ** The error middleware ([server/middleware/error.js]) *)

(** [x || 500] on a status code and [m || 'Server Error'] on a message. *)
Definition status_or_500 (sc : option Z) : Z :=
  match sc with
  | Some c => if c =? 0 then 500 else c
  | None => 500
  end.

Definition message_or_default (m : string) : string :=
  if JsString.is_empty m then "Server Error" else m.

(** The local [error] of the handler: the copy of [err] it starts from
    and the [ErrorResponse] that replaces it in each matching branch. Only
    [statusCode] and [message] are read from it at the end. *)
Definition errorHandler_error (err : JsError) : JsError :=
  let error0 := err in
  let error1 :=
    if bool_decide (e_name err = "CastError")
    then ErrorResponse "Resource not found" 404
    else error0 in
  let error2 :=
    if bool_decide (e_code err = Some 11000)
    then ErrorResponse "Duplicate field value entered" 400
    else error1 in
  let error3 :=
    if bool_decide (e_name err = "ValidationError")
    then ErrorResponse (JsString.join_comma (e_errors err)) 400
    else error2 in
  error3.

Definition errorHandler (err : JsError) : Response :=
  let error := errorHandler_error err in
  MkResponse (status_or_500 (e_statusCode error)) false None None
             (Some (message_or_default (e_message error))) None.

(** Runs the handlers of one route in order; a failure goes to
    [errorHandler], which is mounted after the routers. *)
Fixpoint run_chain {B : Type} (hs : list (Handler B)) (env : Env)
         (st : Store) (req : Request B) : Outcome * Store :=
  match hs with
  | [] => (Unanswered, st)
  | h :: rest =>
      match h env st req with
      | Next req' st' => run_chain rest env st' req'
      | Send res st' => (Responded res, st')
      | Fail err st' => (Responded (errorHandler err), st')
      | Stall st' => (Unanswered, st')
      end
  end.

(** ** Authentication middleware ([server/middleware/auth.js]) *)

Module Auth.

(** A JS value used as a condition: [undefined] and the empty string are
    falsy. *)
Definition truthy (s : option string) : bool :=
  match s with
  | Some v => negb (JsString.is_empty v)
  | None => false
  end.

(** The [token] variable after the [if]/[else if] of [protect]. *)
Definition extract_token {B : Type} (req : Request B) : option string :=
  match authorization req with
  | Some a =>
      if truthy (Some a) && JsString.startsWith a "Bearer"
      then JsString.split_space a !! 1%nat
      else if truthy (cookie_token req) then cookie_token req else None
  | None =>
      if truthy (cookie_token req) then cookie_token req else None
  end.

Definition with_user {B : Type} (req : Request B) (u : UserSlot) : Request B :=
  MkRequest (authorization req) (cookie_token req) (param_id req)
            (body req) (file req) u.

Definition not_authorized : JsError :=
  ErrorResponse "Not authorized to access this route" 401.

Definition protect {B : Type} : Handler B := fun env st req =>
  let token := extract_token req in
  if negb (truthy token) then Fail not_authorized st
  else
    match token with
    | None => Fail not_authorized st
    | Some tok =>
        match jwt_verify env tok with
        | None => Fail not_authorized st
        | Some uid => Next (with_user req (Resolved (users st !! uid))) st
        end
    end.

(** Reading property [prop] of [req.user] when it is [null] or
    [undefined] (message of Node 14, the version the guide asks for). *)
Definition deref_error (slot : UserSlot) (prop : string) : JsError :=
  match slot with
  | Unset =>
      TypeError ("Cannot read property '" +:+ prop +:+ "' of undefined")
  | Resolved _ =>
      TypeError ("Cannot read property '" +:+ prop +:+ "' of null")
  end.

Definition forbidden_role (role : string) : JsError :=
  ErrorResponse
    ("User role " +:+ role +:+ " is not authorized to access this route")
    403.

Definition authorize {B : Type} (roles : list string) : Handler B :=
  fun env st req =>
    match user req with
    | Resolved (Some u) =>
        if negb (bool_decide (User.role u ∈ roles))
        then Fail (forbidden_role (User.role u)) st
        else Next req st
    | slot => Fail (deref_error slot "role") st
    end.

End Auth.

(** ** The Project model ([server/models/Project.js]) *)

Module ProjectModel.

Import Project.

Definition not_word_nor_space (c : ascii) : bool :=
  negb (JsString.is_word c || JsString.is_space c).

(** The expression of the [pre('save')] hook:
    [title.toLowerCase().replace(/[^\w ]+/g, '').replace(/ +/g, '-')]. *)
Definition slug_of_title (title : string) : string :=
  JsString.replace_all_plus JsString.is_space "-"
    (JsString.replace_all_plus not_word_nor_space ""
       (JsString.toLowerCase title)).

Definition set_slug (p : t) (s : string) : t :=
  Build (id p) (title p) s (client p) (description p) (shortDescription p)
        (categories p) (technologies p) (features p) (thumbnailImage p)
        (galleryImages p) (projectUrl p) (testimonial_ p) (featured p)
        (completionDate p) (createdBy p) (createdAt p) (updatedAt p).

(** [ProjectSchema.pre('save', ...)] *)
Definition pre_save (p : t) : t := set_slug p (slug_of_title (title p)).

Definition category_enum : list string := ["AI"; "Mobile"; "Web"; "UI/UX"].

(** Validators of a path that holds a value, in the order Mongoose runs
    them ([required] first, the first failure ends the path); the result is
    the list of messages of the failed validators. *)
Definition check_title (v : string) : list string :=
  if JsString.is_empty v then ["Project title is required"]
  else if (100 <? Z.of_nat (String.length v))
       then ["Title cannot be more than 100 characters"]
       else [].

Definition check_required (msg : string) (v : string) : list string :=
  if JsString.is_empty v then [msg] else [].

Definition check_shortDescription (v : string) : list string :=
  if JsString.is_empty v then ["Short description is required"]
  else if (200 <? Z.of_nat (String.length v))
       then ["Short description cannot exceed 200 characters"]
       else [].

(** The message of the [enum] validator for the value [v] at [path]. *)
Definition enum_message (path v : string) : string :=
  "`" +:+ v +:+ "` is not a valid enum value for path `" +:+ path +:+ "`.".

(** The [enum] of [categories] is a validator of the elements of the
    array. On a document the element at index [i] is validated under the
    path [categories.i], which its message names. *)
Fixpoint check_elements (i : nat) (v : list string) : list string :=
  match v with
  | [] => []
  | c :: rest =>
      (if bool_decide (c ∈ category_enum) then []
       else [enum_message ("categories." +:+ JsString.of_Z (Z.of_nat i)) c])
      ++ check_elements (S i) rest
  end.

(** [required] on an array path asks for an array and nothing more: the
    empty array, which an absent array path defaults to, passes it. The
    messages "At least one category is required" and "At least one
    technology is required" are therefore never produced, and
    [technologies] has no validator that can fail. *)
Definition check_categories (v : list string) : list string :=
  check_elements 0 v.

(** In an update the elements are validated by the same validator under
    the path of the array, which the message names. *)
Definition check_categories_update (v : list string) : list string :=
  enum_message "categories" <$> filter (fun c => c ∉ category_enum) v.

(** [required] on a path the body does not set. *)
Definition check_unset {A : Type} (msg : string) (v : option A)
  : list string :=
  match v with
  | None => [msg]
  | Some _ => []
  end.

(** The validators of a path the body sets. *)
Definition check_set {A : Type} (check : A -> list string) (v : option A)
  : list string :=
  from_option check [] v.

(** The body after the schema setters ([trim] on [title] and [client]). *)
Definition cast (b : payload) : payload :=
  Payload (JsString.trim <$> b_title b) (b_slug b)
          (JsString.trim <$> b_client b) (b_description b)
          (b_shortDescription b) (b_categories b) (b_technologies b)
          (b_features b) (b_thumbnailImage b) (b_galleryImages b)
          (b_projectUrl b) (b_testimonial b) (b_featured b)
          (b_completionDate b) (b_createdBy b).

(** Document validation of [save] on [new Project(b)], [b] a cast body:
    the messages of [err.errors] in the order Mongoose validates the paths.
    The required paths that the body leaves unset come first, and Mongoose
    keeps them in the reverse of the schema order; then the paths that the
    body sets, in the order of its keys (the record lists them in the order
    of the schema); then the elements of the arrays. *)
Definition validate_document (b : payload) : list string :=
  (check_unset "Path `createdBy` is required." (b_createdBy b)
   ++ check_unset "Thumbnail image is required" (b_thumbnailImage b)
   ++ check_unset "Short description is required" (b_shortDescription b)
   ++ check_unset "Project description is required" (b_description b)
   ++ check_unset "Client name is required" (b_client b)
   ++ check_unset "Project title is required" (b_title b))
  ++ (check_set check_title (b_title b)
      ++ check_set (check_required "Client name is required") (b_client b)
      ++ check_set (check_required "Project description is required")
           (b_description b)
      ++ check_set check_shortDescription (b_shortDescription b)
      ++ check_set (check_required "Thumbnail image is required")
           (b_thumbnailImage b))
  ++ check_categories (default [] (b_categories b)).

(** Update validators ([runValidators: true]): only the paths the
    update sets, in the order of the keys of the body, the elements of an
    array right after the array. *)
Definition validate_update (b : payload) : list string :=
  check_set check_title (b_title b)
  ++ check_set (check_required "Client name is required") (b_client b)
  ++ check_set (check_required "Project description is required")
       (b_description b)
  ++ check_set check_shortDescription (b_shortDescription b)
  ++ check_set check_categories_update (b_categories b)
  ++ check_set (check_required "Thumbnail image is required")
       (b_thumbnailImage b).

(** [new Project(body)] with its defaults: the document built from a
    cast body that passed [validate_document], with a fresh [_id]. *)
Definition construct (oid : ObjectId) (b : payload) : t :=
  Build oid (default "" (b_title b)) (default "" (b_slug b))
        (default "" (b_client b)) (default "" (b_description b))
        (default "" (b_shortDescription b)) (default [] (b_categories b))
        (default [] (b_technologies b)) (default [] (b_features b))
        (default "" (b_thumbnailImage b)) (default [] (b_galleryImages b))
        (b_projectUrl b) (b_testimonial b) (default false (b_featured b))
        (b_completionDate b) (default oid (b_createdBy b)) 0 0.

Definition set_timestamps (p : t) (created updated : Z) : t :=
  Build (id p) (title p) (slug p) (client p) (description p)
        (shortDescription p) (categories p) (technologies p) (features p)
        (thumbnailImage p) (galleryImages p) (projectUrl p) (testimonial_ p)
        (featured p) (completionDate p) (createdBy p) created updated.

(** The [$set] of a cast body on a stored document. *)
Definition apply_set (p : t) (b : payload) : t :=
  Build (id p)
        (default (title p) (b_title b))
        (default (slug p) (b_slug b))
        (default (client p) (b_client b))
        (default (description p) (b_description b))
        (default (shortDescription p) (b_shortDescription b))
        (default (categories p) (b_categories b))
        (default (technologies p) (b_technologies b))
        (default (features p) (b_features b))
        (default (thumbnailImage p) (b_thumbnailImage b))
        (default (galleryImages p) (b_galleryImages b))
        (match b_projectUrl b with Some u => Some u | None => projectUrl p end)
        (match b_testimonial b with
         | Some q => Some q
         | None => testimonial_ p
         end)
        (default (featured p) (b_featured b))
        (match b_completionDate b with
         | Some d => Some d
         | None => completionDate p
         end)
        (default (createdBy p) (b_createdBy b))
        (createdAt p) (updatedAt p).

(** The unique index on [slug]: does a document other than [self] hold
    the slug [s]? *)
Definition slug_taken (ps : gmap positive t) (self : ObjectId) (s : string)
  : bool :=
  existsb (fun kp => bool_decide (slug (snd kp) = s)
                     && negb (bool_decide (fst kp = self)))
          (map_to_list ps).

(** [Project.create(body)]: construction, validation, the [pre('save')]
    hook, then the insert, which the unique index may refuse. The new
    [ObjectId] is a key no document of the collection has. *)
Definition create (env : Env) (st : Store) (b : payload)
  : JsError + (t * Store) :=
  let oid := fresh (dom (projects st)) in
  let cb := cast b in
  match validate_document cb with
  | [] =>
      let doc := set_timestamps (pre_save (construct oid cb))
                                (now env) (now env) in
      if slug_taken (projects st) oid (slug doc)
      then inl (DuplicateKeyError "slug_1")
      else inr (doc, MkStore (users st) (<[oid := doc]> (projects st))
                             (contacts st) (outbox st) (uploads st))
  | msgs => inl (ValidationError "Project" msgs)
  end.

(** [Project.findById(id)]: a cast failure throws, an unknown or
    undefined id gives [null]. *)
Definition findById (st : Store) (i : IdParam) : JsError + option t :=
  match i with
  | WellFormed k => inr (projects st !! k)
  | Malformed raw => inl (CastError raw)
  | Absent => inr None
  end.

(** [Project.findByIdAndUpdate(id, body, {new: true, runValidators:
    true})]: casts and validates the paths of the body and applies them in
    one [$set], with [updatedAt]; no [save] happens, so no [pre('save')]
    hook runs. *)
Definition findByIdAndUpdate (env : Env) (st : Store) (i : IdParam)
           (b : payload) : JsError + (option t * Store) :=
  match i with
  | Malformed raw => inl (CastError raw)
  | Absent => inr (None, st)
  | WellFormed k =>
      let cb := cast b in
      match validate_update cb with
      | [] =>
          match projects st !! k with
          | None => inr (None, st)
          | Some p =>
              let doc :=
                set_timestamps (apply_set p cb) (createdAt p) (now env) in
              if slug_taken (projects st) k (slug doc)
              then inl (DuplicateKeyError "slug_1")
              else inr (Some doc,
                        MkStore (users st) (<[k := doc]> (projects st))
                                (contacts st) (outbox st) (uploads st))
          end
      | msgs => inl (ValidationError "Validation" msgs)
      end
  end.

(** [project.remove()] *)
Definition remove (st : Store) (k : ObjectId) : Store :=
  MkStore (users st) (delete k (projects st)) (contacts st) (outbox st)
          (uploads st).

End ProjectModel.

(** ** The Project controller and routes
    ([server/controllers/projectController.js],
    [server/routes/projectRoutes.js]) *)

Module ProjectController.

Import Project.

Definition oid_text (k : ObjectId) : string := JsString.of_Z (Z.pos k).

Definition id_text (i : IdParam) : string :=
  match i with
  | WellFormed k => oid_text k
  | Malformed raw => raw
  | Absent => "undefined"
  end.

Definition with_body {B C : Type} (req : Request B) (b : C) : Request C :=
  MkRequest (authorization req) (cookie_token req) (param_id req) b
            (file req) (user req).

Definition set_createdBy (b : payload) (k : ObjectId) : payload :=
  Payload (b_title b) (b_slug b) (b_client b) (b_description b)
          (b_shortDescription b) (b_categories b) (b_technologies b)
          (b_features b) (b_thumbnailImage b) (b_galleryImages b)
          (b_projectUrl b) (b_testimonial b) (b_featured b)
          (b_completionDate b) (Some k).

Definition ok_project (code : Z) (p : t) : Response :=
  MkResponse code true (Some (DProject p)) None None None.

Definition ok_empty : Response :=
  MkResponse 200 true (Some DEmpty) None None None.

Definition not_found (i : IdParam) : JsError :=
  ErrorResponse ("Project not found with id of " +:+ id_text i) 404.

Definition not_owner (u : User.t) (verb : string) : JsError :=
  ErrorResponse ("User " +:+ oid_text (User.id u)
                 +:+ " is not authorized to " +:+ verb +:+ " this project")
                401.

(** The condition of the ownership test of [updateProject] and
    [deleteProject]. *)
Definition refused (p : t) (u : User.t) : bool :=
  negb (bool_decide (createdBy p = User.id u))
  && negb (bool_decide (User.role u = "admin")).

Definition createProject : Handler payload := fun env st req =>
  match user req with
  | Resolved (Some u) =>
      let body' := set_createdBy (body req) (User.id u) in
      match ProjectModel.create env st body' with
      | inl err => Fail err st
      | inr (project, st') => Send (ok_project 201 project) st'
      end
  | slot => Fail (Auth.deref_error slot "id") st
  end.

Definition updateProject : Handler payload := fun env st req =>
  match ProjectModel.findById st (param_id req) with
  | inl err => Fail err st
  | inr None => Fail (not_found (param_id req)) st
  | inr (Some project) =>
      match user req with
      | Resolved (Some u) =>
          if refused project u then Fail (not_owner u "update") st
          else
            match ProjectModel.findByIdAndUpdate env st (param_id req)
                                                 (body req) with
            | inl err => Fail err st
            | inr (Some project', st') => Send (ok_project 200 project') st'
            | inr (None, st') =>
                Send (MkResponse 200 true (Some DNull) None None None) st'
            end
      | slot => Fail (Auth.deref_error slot "id") st
      end
  end.

Definition deleteProject : Handler payload := fun env st req =>
  match ProjectModel.findById st (param_id req) with
  | inl err => Fail err st
  | inr None => Fail (not_found (param_id req)) st
  | inr (Some project) =>
      match user req with
      | Resolved (Some u) =>
          if refused project u then Fail (not_owner u "delete") st
          else Send ok_empty (ProjectModel.remove st (id project))
      | slot => Fail (Auth.deref_error slot "id") st
      end
  end.

(** [router.post('/', protect, authorize('admin'), createProject)] *)
Definition post_project : list (Handler payload) :=
  [Auth.protect; Auth.authorize ["admin"]; createProject].

(** [router.put('/:id', protect, authorize('admin'), updateProject)] *)
Definition put_project : list (Handler payload) :=
  [Auth.protect; Auth.authorize ["admin"]; updateProject].


End ProjectController.

(** ** The image upload middleware (src/main.js, Image Upload System) *)

Module Upload.

(** [/jpeg|jpg|png|webp/] *)
Definition filetypes : Regex.regex :=
  Regex.Alt (Regex.str "jpeg")
    (Regex.Alt (Regex.str "jpg")
       (Regex.Alt (Regex.str "png") (Regex.str "webp"))).

(** [checkFileType(file, cb)]: [None] for [cb(null, true)], the message of
    the error otherwise. *)
Definition checkFileType (f : File.t) : option string :=
  let extname :=
    Regex.test filetypes
      (JsString.toLowerCase (Path.extname (File.originalname f))) in
  let mimetype := Regex.test filetypes (File.mimetype f) in
  if mimetype && extname then None
  else Some "Only image files are allowed".

(** [limits: { fileSize: 5000000 }] *)
Definition fileSize : Z := 5000000.

(** The [filename] function of the disk storage. *)
Definition filename (env : Env) (f : File.t) : string :=
  "project-" +:+ JsString.of_Z (now env)
  +:+ Path.extname (File.originalname f).

(** [upload(req, res, cb)], multer's [single('image')], on a multipart
    body with at most one file part. A part without a file name is passed
    over. A file in a field other than [image] is refused before the filter
    is asked. Then the filter runs, and the file is written unless it
    exceeds the limit. The result is the message of the error passed to the
    callback, or [req.file] (its [filename], when a file was taken) and the
    store. *)
Definition upload {B : Type} (env : Env) (st : Store) (req : Request B)
  : string + (option string * Store) :=
  match file req with
  | None => inr (None, st)
  | Some f =>
      if JsString.is_empty (File.originalname f) then inr (None, st)
      else if negb (bool_decide (File.fieldname f = "image"))
      then inl "Unexpected field"
      else
        match checkFileType f with
        | Some msg => inl msg
        | None =>
            if fileSize <? File.size f then inl "File too large"
            else
              let name := filename env f in
              inr (Some name,
                   MkStore (users st) (projects st) (contacts st) (outbox st)
                           (uploads st ++ [name]))
        end
  end.

Definition uploadProjectImage {B : Type} : Handler B := fun env st req =>
  match upload env st req with
  | inl msg => Fail (ErrorResponse msg 400) st
  | inr (None, st') => Fail (ErrorResponse "Please upload a file" 400) st'
  | inr (Some name, st') =>
      Send (MkResponse 200 true
              (Some (DFile name ("/uploads/projects/" +:+ name)))
              None None None) st'
  end.

End Upload.

(** ** The Contact model ([server/models/Contact.js]) *)

Module ContactModel.

Import Contact.

(** The fields [submitContact] reads from [req.body]. *)
Record payload : Type := Payload {
  b_firstName : option string;
  b_lastName : option string;
  b_email : option string;
  b_company : option string;
  b_message : option string
}.

(** [/^\w+([.-]?\w+)*@\w+([.-]?\w+)*(\.\w{2,3})+$/] *)
Definition email_pattern : Regex.regex :=
  let w := Regex.Class JsString.is_word in
  let sep := Regex.Class (fun c => (JsString.code c =? 46)
                                   || (JsString.code c =? 45)) in
  let dot := Regex.Class (fun c => JsString.code c =? 46) in
  let words := Regex.Cat (Regex.plus w)
                 (Regex.Star (Regex.Cat (Regex.opt sep) (Regex.plus w))) in
  let tld := Regex.Cat dot (Regex.Cat w (Regex.Cat w (Regex.opt w))) in
  Regex.Cat words
    (Regex.Cat (Regex.Class (fun c => JsString.code c =? 64))
       (Regex.Cat words (Regex.plus tld))).

Definition status_enum : list string :=
  ["new"; "contacted"; "in-progress"; "completed"; "archived"].

(** The value of the [email] path after its setters ([trim],
    [lowercase]). *)
Definition cast_email (v : string) : string :=
  JsString.toLowerCase (JsString.trim v).

Definition check_required (msg : string) (v : string) : list string :=
  if JsString.is_empty v then [msg] else [].

Definition check_email (v : string) : list string :=
  if JsString.is_empty v then ["Email is required"]
  else if Regex.test_anchored email_pattern v then []
       else ["Please provide a valid email"].

Definition check_status (v : string) : list string :=
  if bool_decide (v ∈ status_enum) then []
  else ["`" +:+ v +:+ "` is not a valid enum value for path `status`."].

(** [new Contact({firstName, lastName, email, company, message,
    status, dateSubmitted})]: the setters run on assignment; an absent
    string path is modelled as the empty string, which the [required]
    validator refuses in the same way. *)
Definition construct (oid : ObjectId) (b : payload) (status : string)
           (dateSubmitted : Z) (t : Z) : Contact.t :=
  Build oid
        (JsString.trim (default "" (b_firstName b)))
        (JsString.trim (default "" (b_lastName b)))
        (cast_email (default "" (b_email b)))
        (JsString.trim <$> b_company b)
        (JsString.trim (default "" (b_message b)))
        status dateSubmitted t t t.

Definition validate (c : Contact.t) : list string :=
  check_required "First name is required" (firstName c)
  ++ check_required "Last name is required" (lastName c)
  ++ check_email (email c)
  ++ check_required "Message is required" (message c)
  ++ check_status (status c).

(** [doc.save()] of a new document. *)
Definition save (st : Store) (c : Contact.t) : JsError + Store :=
  match validate c with
  | [] => inr (MkStore (users st) (projects st)
                       (<[id c := c]> (contacts st)) (outbox st)
                       (uploads st))
  | msgs => inl (ValidationError "Contact" msgs)
  end.

End ContactModel.

(** ** The mail utility ([server/utils/email.js]) *)

(** [sendEmail(options)]: resolves once the transport has taken the mail,
    rejects when [transporter.sendMail] does. *)
Definition sendEmail (env : Env) (st : Store) (m : Email) : option Store :=
  if smtp_accepts env m
  then Some (MkStore (users st) (projects st) (contacts st)
                     (outbox st ++ [m]) (uploads st))
  else None.

(** ** The Contact controller and routes
    ([server/controllers/contactController.js],
    [server/routes/contactRoutes.js]) *)

Module ContactController.

Import ContactModel.

(** An absent field interpolated in a template literal. *)
Definition interpolate (v : option string) : string := default "undefined" v.

Definition admin_mail (b : payload) : Email :=
  MkEmail "admin@peaktech.com" "New Contact Form Submission"
          ("New inquiry from " +:+ interpolate (b_firstName b) +:+ " "
           +:+ interpolate (b_lastName b) +:+ " ("
           +:+ interpolate (b_email b) +:+ ")").

Definition user_mail (b : payload) : Email :=
  MkEmail (interpolate (b_email b)) "Thank you for contacting PeakTech"
          ("Dear " +:+ interpolate (b_firstName b)
           +:+ ", thank you for reaching out to us. We'll be in touch shortly.").

Definition submitted : Response :=
  MkResponse 201 true None None None
             (Some "Contact form submitted successfully").

(** The response of the [catch] block. *)
Definition problem : Response :=
  MkResponse 500 false None None None
             (Some "There was a problem submitting your form").

(** The document [submitContact] builds from the body: [status: 'new'],
    [dateSubmitted: Date.now()], a fresh [_id] and the schema defaults. *)
Definition newContact (env : Env) (st : Store) (b : payload) : Contact.t :=
  construct (fresh (dom (contacts st))) b "new" (now env) (now env).

Definition submitContact : Handler payload := fun env st req =>
  let b := body req in
  match save st (newContact env st b) with
  | inl _ => Send problem st
  | inr st1 =>
      match sendEmail env st1 (admin_mail b) with
      | None => Send problem st1
      | Some st2 =>
          match sendEmail env st2 (user_mail b) with
          | None => Send problem st2
          | Some st3 => Send submitted st3
          end
      end
  end.

(** [exports.getContacts = async (req, res) => { }]: the body is empty. *)
Definition getContacts {B : Type} : Handler B := fun env st req => Stall st.

(** [router.post('/', contactController.submitContact)] *)
Definition post_contact : list (Handler payload) := [submitContact].

(** The two handlers every management route puts before its controller:
    [protect, authorize('admin')]. *)
Definition management_gate {B : Type} : list (Handler B) :=
  [Auth.protect; Auth.authorize ["admin"]].

(** [router.get('/', protect, authorize('admin'),
    contactController.getContacts)] *)
Definition get_contacts {B : Type} : list (Handler B) :=
  management_gate ++ [getContacts].

End ContactController.

(** ** Contact management handlers, from the specification *)

Module ContactManagement.

Import Contact.

Definition set_status (c : Contact.t) (s : string) (t : Z) : Contact.t :=
  Build (id c) (firstName c) (lastName c) (email c) (company c) (message c)
        s (dateSubmitted c) t (createdAt c) t.

Definition contact_not_found : JsError :=
  ErrorResponse "Contact not found" 404.

Definition ok_contact (c : Contact.t) : Response :=
  MkResponse 200 true (Some (DContact c)) None None None.

(** Modelled from the spec: [contactController.getContact] is named by
    the routes but has no body in the source; the specification describes
    it as the analogue of the Project CRUD: fetch one record, 404 if
    absent. *)
Definition getContact {B : Type} : Handler B := fun env st req =>
  match param_id req with
  | Malformed raw => Fail (CastError raw) st
  | Absent => Fail contact_not_found st
  | WellFormed k =>
      match contacts st !! k with
      | None => Fail contact_not_found st
      | Some c => Send (ok_contact c) st
      end
  end.

(** Modelled from the spec: [contactController.updateContact] is named by
    the routes but has no body in the source; the specification describes
    [updateStatus] as changing the status, a member of the status enum,
    and additionally setting [lastUpdated]. *)
Definition updateContact : Handler string := fun env st req =>
  match param_id req with
  | Malformed raw => Fail (CastError raw) st
  | Absent => Fail contact_not_found st
  | WellFormed k =>
      match contacts st !! k with
      | None => Fail contact_not_found st
      | Some c =>
          match ContactModel.check_status (body req) with
          | [] =>
              let c' := set_status c (body req) (now env) in
              Send (ok_contact c')
                   (MkStore (users st) (projects st)
                            (<[k := c']> (contacts st)) (outbox st)
                            (uploads st))
          | msgs => Fail (ValidationError "Validation" msgs) st
          end
      end
  end.

(** Modelled from the spec: [contactController.deleteContact] is named by
    the routes but has no body in the source; the specification describes
    it as the analogue of the Project delete: remove the record, 404 if
    absent. *)
Definition deleteContact {B : Type} : Handler B := fun env st req =>
  match param_id req with
  | Malformed raw => Fail (CastError raw) st
  | Absent => Fail contact_not_found st
  | WellFormed k =>
      match contacts st !! k with
      | None => Fail contact_not_found st
      | Some c =>
          Send (MkResponse 200 true (Some DEmpty) None None None)
               (MkStore (users st) (projects st) (delete k (contacts st))
                        (outbox st) (uploads st))
      end
  end.

(** [router.get('/:id', protect, authorize('admin'),
    contactController.getContact)] *)
Definition get_contact {B : Type} : list (Handler B) :=
  ContactController.management_gate ++ [getContact].

(** [router.put('/:id', protect, authorize('admin'),
    contactController.updateContact)] *)
Definition put_contact : list (Handler string) :=
  ContactController.management_gate ++ [updateContact].

(** [router.delete('/:id', protect, authorize('admin'),
    contactController.deleteContact)] *)
Definition delete_contact {B : Type} : list (Handler B) :=
  ContactController.management_gate ++ [deleteContact].

End ContactManagement.

(** ** The slug rule in the words of the specification *)

Module SlugRule.

(** "deleting every character that is neither a word character nor a
    space" *)
Fixpoint keep_word_and_space (s : string) : string :=
  match s with
  | EmptyString => EmptyString
  | String c s' =>
      if JsString.is_word c || JsString.is_space c
      then String c (keep_word_and_space s')
      else keep_word_and_space s'
  end.

(** "replacing each maximal run of spaces with a single hyphen": a space
    followed by another space is inside its run and gives nothing, the
    last space of a run gives the hyphen of that run. *)
Fixpoint hyphenate_runs (s : string) : string :=
  match s with
  | EmptyString => EmptyString
  | String c s' =>
      if JsString.is_space c then
        match s' with
        | String c' _ =>
            if JsString.is_space c' then hyphenate_runs s'
            else String "-" (hyphenate_runs s')
        | EmptyString => "-"
        end
      else String c (hyphenate_runs s')
  end.

Definition derive (title : string) : string :=
  hyphenate_runs (keep_word_and_space (JsString.toLowerCase title)).

Definition word_or_space (c : ascii) : bool :=
  JsString.is_word c || JsString.is_space c.

(** The units a slug is made of. *)
Definition word_or_hyphen (c : ascii) : bool :=
  JsString.is_word c || bool_decide (c = "-"%char).

End SlugRule.

(** ** Requests as seen by the routes *)

(** The request carries a token that [jwt.verify] accepts and whose [id]
    is the key of the stored user [u]. *)
Definition authenticated {B : Type} (env : Env) (st : Store)
           (req : Request B) (u : User.t) : Prop :=
  exists (tok : string) (uid : ObjectId),
    Auth.extract_token req = Some tok
    /\ Auth.truthy (Some tok) = true
    /\ jwt_verify env tok = Some uid
    /\ users st !! uid = Some u.


(** The body of the error middleware's answer to an [ErrorResponse]. *)
Definition failure (code : Z) (msg : string) : Response :=
  MkResponse code false None None (Some msg) None.

Definition unauthorized_401 : Response :=
  failure 401 "Not authorized to access this route".

Definition forbidden_403 (role : string) : Response :=
  failure 403
    ("User role " +:+ role +:+ " is not authorized to access this route").

(** A contact body in the words of the specification: first name, last
    name and message present (not blank), and an email that matches the
    pattern once the schema setters have run. *)
Definition present (v : option string) : bool :=
  match v with
  | Some s => negb (JsString.is_empty (JsString.trim s))
  | None => false
  end.

Definition well_formed (b : ContactModel.payload) : bool :=
  present (ContactModel.b_firstName b)
  && present (ContactModel.b_lastName b)
  && present (ContactModel.b_message b)
  && match ContactModel.b_email b with
     | Some e =>
         Regex.test_anchored ContactModel.email_pattern
                             (ContactModel.cast_email e)
     | None => false
     end.

(** The allow-list of the specification for uploads. *)
Definition allowed_extensions : list string :=
  [".jpeg"; ".jpg"; ".png"; ".webp"].

(** The alternatives of the pattern of [checkFileType]. *)
Definition image_words : list string := ["jpeg"; "jpg"; "png"; "webp"].

(** [w] occurs somewhere in [s]. *)
Definition occurs_in (w s : string) : Prop :=
  exists pre post : string, s = pre +:+ w +:+ post.

(** ** Statements of the specification that the code does not satisfy *)

Module SpecStatements.

(** Whatever create stores, its slug is the rule applied to the title of
    the payload. *)
Definition slug_is_rule_on_payload_title : Prop :=
  forall (env : Env) (st st' : Store) (req : Request Project.payload)
         (res : Response) (t : string),
    Project.b_title (body req) = Some t ->
    ProjectController.createProject env st req = Send res st' ->
    exists p : Project.t,
      data res = Some (DProject p)
      /\ projects st' !! Project.id p = Some p
      /\ Project.slug p = SlugRule.derive t.


(** A well-formed contact body always gives one new record with status
    "new" and a response with [success: true]. *)
Definition well_formed_contact_succeeds : Prop :=
  forall (env : Env) (st : Store) (req : Request ContactModel.payload),
    well_formed (body req) = true ->
    exists (c : Contact.t) (res : Response) (st' : Store),
      ContactController.submitContact env st req = Send res st'
      /\ contacts st !! Contact.id c = None
      /\ contacts st' = <[Contact.id c := c]> (contacts st)
      /\ Contact.status c = "new"
      /\ success res = true.

(** An email that does not match the pattern gives a 400-class
    validation rejection and no record. *)
Definition invalid_email_is_400 : Prop :=
  forall (env : Env) (st : Store) (req : Request ContactModel.payload)
         (e : string),
    ContactModel.b_email (body req) = Some e ->
    Regex.test_anchored ContactModel.email_pattern e = false ->
    exists res,
      ContactController.submitContact env st req = Send res st
      /\ status res = 400.

(** Admins and editors pass the gate of the Contact management routes,
    every other role gets 403. *)
Definition admin_or_editor_may_manage : Prop :=
  forall (B : Type) (env : Env) (st : Store) (req : Request B) (u : User.t)
         (h : Handler B),
    authenticated env st req u ->
    (User.role u ∈ ["admin"; "editor"] ->
     run_chain (ContactController.management_gate ++ [h]) env st req
     = run_chain [h] env st (Auth.with_user req (Resolved (Some u))))
    /\ (User.role u ∉ ["admin"; "editor"] ->
        run_chain (ContactController.management_gate ++ [h]) env st req
        = (Responded (forbidden_403 (User.role u)), st)).

End SpecStatements.

(** ** A concrete deployment for examples *)

Module Scenario.

Definition ada : User.t :=
  User.Build 1 "ada" "ada@peaktech.com" "$2a$10$hash-ada" "admin" 1000 2000.

Definition eve : User.t :=
  User.Build 2 "eve" "eve@peaktech.com" "$2a$10$hash-eve" "editor" 1000 2000.

(** The verifier accepts three tokens; the last one names a user id that
    no document has. *)
Definition verify (tok : string) : option ObjectId :=
  if bool_decide (tok = "tok-ada") then Some 1%positive
  else if bool_decide (tok = "tok-eve") then Some 2%positive
  else if bool_decide (tok = "tok-ghost") then Some 9%positive
  else None.

Definition env_up : Env := MkEnv 1700000000000 verify (fun _ => true).

(** The same, with a mail transport that refuses every mail. *)
Definition env_smtp_down : Env :=
  MkEnv 1700000000000 verify (fun _ => false).

(** A transport that takes the mail for the administrators only. *)
Definition env_user_mail_down : Env :=
  MkEnv 1700000000000 verify
        (fun m => bool_decide (mail_to m = "admin@peaktech.com")).

Definition initial_store : Store :=
  MkStore (<[2%positive := eve]> (<[1%positive := ada]> ∅)) ∅ ∅ [] [].

Definition bearer {B : Type} (tok : string) (i : IdParam) (b : B)
  : Request B :=
  MkRequest (Some ("Bearer " +:+ tok)) None i b None Unset.

Definition no_credentials {B : Type} (i : IdParam) (b : B) : Request B :=
  MkRequest None None i b None Unset.

Definition ai_ops : Project.payload :=
  Project.Payload (Some "AI & Ops: v2!") None (Some "Acme")
    (Some "Operations tooling with machine learning")
    (Some "ML for operations") (Some ["AI"; "Web"]) (Some ["Node"; "MongoDB"])
    None (Some "/uploads/projects/project-1.png") None None None None None
    None.

(** A valid body whose title has white space around it. *)
Definition padded_title : Project.payload :=
  Project.Payload (Some " Hello World ") None (Some "Acme")
    (Some "A description") (Some "Short") (Some ["Web"]) (Some ["Node"])
    None (Some "/uploads/projects/project-1.png") None None None None None
    None.

(** The Project [createProject] makes of [ai_ops] for [ada] in the
    initial store, and the store that holds it. *)
Definition ai_ops_project : Project.t :=
  Project.Build 1 "AI & Ops: v2!" "ai-ops-v2" "Acme"
    "Operations tooling with machine learning" "ML for operations"
    ["AI"; "Web"] ["Node"; "MongoDB"] []
    "/uploads/projects/project-1.png" [] None None false None 1
    1700000000000 1700000000000.

Definition old_title : Project.t :=
  Project.Build 1 "Old Title" "old-title" "Acme" "A description" "Short"
    ["Web"] ["Node"] [] "/uploads/projects/project-1.png" [] None None false
    None 1 1000 1000.


Definition store_with (p : Project.t) : Store :=
  MkStore (users initial_store) (<[Project.id p := p]> ∅) ∅ [] [].

Definition store_with_ai_ops : Store :=
  MkStore (users initial_store) (<[1%positive := ai_ops_project]> ∅) ∅ [] [].

Definition rename : Project.payload :=
  Project.Payload (Some "New Title") None None None None None None None None
    None None None None None None.

Definition jane : ContactModel.payload :=
  ContactModel.Payload (Some "Jane") (Some "Doe")
    (Some "jane.doe@example.com") None (Some "Please call me back").

Definition jane_bad_email : ContactModel.payload :=
  ContactModel.Payload (Some "Jane") (Some "Doe") (Some "not-an-email") None
    (Some "Please call me back").

Definition submission (b : ContactModel.payload)
  : Request ContactModel.payload :=
  MkRequest None None Absent b None Unset.

Definition a_contact : Contact.t :=
  Contact.Build 1 "Jane" "Doe" "jane.doe@example.com" None
    "Please call me back" "new" 1000 1000 1000 1000.

Definition store_with_contact : Store :=
  MkStore (users initial_store) ∅ (<[1%positive := a_contact]> ∅) [] [].

(** The Contact made of [jane], and the store once it is saved, before
    any mail is sent. *)
Definition saved_jane : Store :=
  MkStore (users initial_store) ∅
          (<[1%positive := ContactController.newContact env_user_mail_down
                             initial_store jane]> ∅) [] [].

(** The store once [jane] is saved and both mails are delivered. *)
Definition delivered_jane : Store :=
  MkStore (users initial_store) ∅
          (<[1%positive := ContactController.newContact env_up
                             initial_store jane]> ∅)
          [ContactController.admin_mail jane; ContactController.user_mail jane]
          [].

Definition pngx : File.t := File.Build "image" "notes.pngx" "image/png" 10.

Definition upload_request : Request unit :=
  MkRequest (Some "Bearer tok-ada") None Absent tt (Some pngx)
            (Resolved (Some ada)).

End Scenario.

(** ** The public Project queries
    ([server/controllers/projectController.js],
    [server/routes/projectRoutes.js]) *)

Module ProjectQueries.

Import Project.

(** [Project.find(filter)]: the documents of the collection that satisfy
    the filter. *)
Definition find (st : Store) (f : Project.t -> bool) : list Project.t :=
  List.filter f (snd <$> map_to_list (projects st)).

(** [{ featured: true }] *)
Definition is_featured (p : Project.t) : bool := featured p.

(** [{ categories: { $in: [category] } }] on an array path: some element
    of [categories] is [category]. *)
Definition in_category (category : string) (p : Project.t) : bool :=
  bool_decide (category ∈ categories p).

Definition ok_list (ps : list Project.t) : Response :=
  MkResponse 200 true (Some (DProjects ps)) (Some (length ps)) None None.

Definition getProjects {B : Type} : Handler B := fun env st req =>
  Send (ok_list (find st (fun _ => true))) st.

Definition getProject {B : Type} : Handler B := fun env st req =>
  match ProjectModel.findById st (param_id req) with
  | inl err => Fail err st
  | inr None => Fail (ProjectController.not_found (param_id req)) st
  | inr (Some project) => Send (ProjectController.ok_project 200 project) st
  end.

Definition getFeaturedProjects {B : Type} : Handler B := fun env st req =>
  Send (ok_list (find st is_featured)) st.

(** [category] is [req.params.category]. *)
Definition getProjectsByCategory {B : Type} (category : string)
  : Handler B := fun env st req =>
  Send (ok_list (find st (in_category category))) st.

(** [router.get('/', getProjects)] *)
Definition get_projects {B : Type} : list (Handler B) := [getProjects].

(** [router.get('/featured', getFeaturedProjects)] *)
Definition get_featured {B : Type} : list (Handler B) :=
  [getFeaturedProjects].

(** [router.get('/:id', getProject)] *)
Definition get_project {B : Type} : list (Handler B) := [getProject].

(** [router.get('/category/:category', getProjectsByCategory)] *)
Definition get_by_category {B : Type} (category : string)
  : list (Handler B) := [getProjectsByCategory category].

End ProjectQueries.

(** ** What the collections keep *)

(** The unique index on [slug]: no two documents hold the same slug. *)
Definition slugs_unique (ps : gmap positive Project.t) : Prop :=
  forall (k1 k2 : ObjectId) (p1 p2 : Project.t),
    ps !! k1 = Some p1 -> ps !! k2 = Some p2 ->
    Project.slug p1 = Project.slug p2 -> k1 = k2.

(** The store a handler leaves. *)
Definition step_store {B : Type} (s : Step B) : Store :=
  match s with
  | Next _ st | Send _ st | Fail _ st | Stall st => st
  end.

(** Every document is stored under its own [_id]. *)
Definition keyed_by_id (ps : gmap positive Project.t) : Prop :=
  forall (k : ObjectId) (p : Project.t),
    ps !! k = Some p -> Project.id p = k.

(** A Contact as [submitContact] lets it into the collection: the
    required strings are not empty, the email matches the pattern and the
    status is "new". *)
Definition contact_as_submitted (c : Contact.t) : Prop :=
  Contact.firstName c ≠ ""
  /\ Contact.lastName c ≠ ""
  /\ Contact.message c ≠ ""
  /\ Regex.test_anchored ContactModel.email_pattern (Contact.email c) = true
  /\ Contact.status c = "new".

(** The units of a stored email: lower-case letters, digits, [_], [.],
    [-] and [@]. *)
Definition email_unit (c : ascii) : bool :=
  JsString.in_range 97 122 c || JsString.in_range 48 57 c
  || (JsString.code c =? 95) || (JsString.code c =? 46)
  || (JsString.code c =? 45) || (JsString.code c =? 64).

Definition not_upper (c : ascii) : bool := negb (JsString.in_range 65 90 c).

(** The units of a slug: lower-case letters, digits, [_] and [-]. *)
Definition slug_unit (c : ascii) : bool :=
  JsString.in_range 97 122 c || JsString.in_range 48 57 c
  || (JsString.code c =? 95) || (JsString.code c =? 45).

(** Every class of the pattern [r] lies within [P]. *)
Fixpoint classes_within (P : ascii -> bool) (r : Regex.regex) : Prop :=
  match r with
  | Regex.Void | Regex.Eps => True
  | Regex.Class p => forall c, p c = true -> P c = true
  | Regex.Cat r1 r2 | Regex.Alt r1 r2 =>
      classes_within P r1 /\ classes_within P r2
  | Regex.Star r1 => classes_within P r1
  end.

(** The units on either side of the [@] of an email: word characters,
    [.] and [-]. *)
Definition address_unit (c : ascii) : bool :=
  JsString.is_word c || (JsString.code c =? 46) || (JsString.code c =? 45).


(** The parts of the email pattern: [\w], [[.-]], [\.], [@],
    [\w+([.-]?\w+)*] and the domain with its [(\.\w{2,3})+]. *)
Module EmailParts.

Import Regex.

Definition word_class : regex := Class JsString.is_word.
Definition sep_class : regex :=
  Class (fun c => (JsString.code c =? 46) || (JsString.code c =? 45)).
Definition dot_class : regex := Class (fun c => JsString.code c =? 46).
Definition at_class : regex := Class (fun c => JsString.code c =? 64).
Definition words_part : regex :=
  Cat (plus word_class) (Star (Cat (opt sep_class) (plus word_class))).
Definition domain_part : regex :=
  Cat words_part
      (plus (Cat dot_class (Cat word_class (Cat word_class (opt word_class))))).

End EmailParts.

(** ** The pages' scripts (src/main.js, src/app.js) *)

(** The testimonial slider ([initTestimonialSlider] of src/main.js,
    [initTestimonials] of src/app.js). [n] is [slides.length]; [%] on
    integers is the remainder of the truncated division. With no slide the
    JS remainder is not a number, which is outside this model. *)
Module Slider.

Inductive click : Type :=
| NextClick
| BackClick
| DotClick (i : nat).

(** The new value of [current] after a click. *)
Definition on_click (n : Z) (current : Z) (c : click) : Z :=
  match c with
  | NextClick => Z.rem (current + 1) n
  | BackClick => Z.rem (current - 1 + n) n
  | DotClick i => Z.of_nat i
  end.

(** [showSlide(idx)]: the [active] class of each slide, [i === idx]. *)
Definition active (n : nat) (idx : Z) : list bool :=
  (fun i => Z.of_nat i =? idx) <$> seq 0 n.

(** [showSlide(idx)]: the [display] of the back button. *)
Definition back_display (idx : Z) : string :=
  if idx =? 0 then "none" else "flex".

Fixpoint clicks (n : Z) (current : Z) (cs : list click) : Z :=
  match cs with
  | [] => current
  | c :: rest => clicks n (on_click n current c) rest
  end.

Definition dot_in_range (n : Z) (c : click) : Prop :=
  match c with
  | DotClick i => Z.of_nat i < n
  | _ => True
  end.

End Slider.

(** The blob animation ([animateBlob] of src/main.js): every 2200 ms the
    frame moves one step in the current direction and the direction flips
    at either end of the keyframes. *)
Module Blob.

Definition keyframes : list string :=
  ["M421.5,320Q410,390,340,410Q270,430,210,390Q150,350,170,280Q190,210,250,170Q310,130,370,170Q430,210,421.5,320Z";
   "M400,320Q420,400,340,420Q260,440,200,390Q140,340,180,270Q220,200,280,160Q340,120,400,170Q460,220,400,320Z";
   "M421.5,320Q410,390,340,410Q270,430,210,390Q150,350,170,280Q190,210,250,170Q310,130,370,170Q430,210,421.5,320Z"].

Record state : Type := State {
  frame : Z;
  direction : Z
}.

Definition start : state := State 0 1.

(** One run of the interval callback, for [len] keyframes. *)
Definition tick (len : Z) (s : state) : state :=
  let frame' := frame s + direction s in
  let direction' :=
    if (frame' =? len - 1) || (frame' =? 0)
    then direction s * -1
    else direction s in
  State frame' direction'.

Fixpoint ticks (len : Z) (k : nat) (s : state) : state :=
  match k with
  | O => s
  | S k' => ticks len k' (tick len s)
  end.

(** What the callback keeps for [len] keyframes: the frame is within
    them, and at either end the direction points inwards. *)
Definition on_keyframes (len : Z) (s : state) : Prop :=
  0 <= frame s <= len - 1
  /\ (direction s = 1 \/ direction s = -1)
  /\ (frame s = 0 -> direction s = 1)
  /\ (frame s = len - 1 -> direction s = -1).

(** The [d] attribute after the callback: [keyframes[frame]]. *)
Definition shown (s : state) : option string :=
  if frame s <? 0 then None else keyframes !! Z.to_nat (frame s).

End Blob.

(** The parallax of src/app.js ([initParallax]): a scroll event records
    the position and requests an animation frame unless one is already
    requested; the frame callback paints with the last position. [A] is
    the type of scroll positions. *)
Module Parallax.

Record state (A : Type) : Type := State {
  lastScroll : A;
  ticking : bool;
  requested : nat;
  painted : option A
}.

Arguments State {A}.
Arguments lastScroll {A}.
Arguments ticking {A}.
Arguments requested {A}.
Arguments painted {A}.

Inductive event (A : Type) : Type :=
| Scroll (y : A)
| Frame.

Arguments Scroll {A}.
Arguments Frame {A}.

Definition start {A : Type} (zero : A) : state A := State zero false 0 None.

(** A scroll event runs the listener; a frame event runs one requested
    callback, if any is requested. *)
Definition step {A : Type} (s : state A) (e : event A) : state A :=
  match e with
  | Scroll y =>
      if negb (ticking s)
      then State y true (S (requested s)) (painted s)
      else State y (ticking s) (requested s) (painted s)
  | Frame =>
      match requested s with
      | O => s
      | S r => State (lastScroll s) false r (Some (lastScroll s))
      end
  end.

Definition run {A : Type} (s : state A) (es : list (event A)) : state A :=
  fold_left step es s.

(** A frame is requested exactly while [ticking] is set. *)
Definition one_request {A : Type} (s : state A) : Prop :=
  requested s = if ticking s then 1%nat else 0%nat.

End Parallax.

(** The category filter of the work page ([renderProjects] and
    [setupFilters] of src/main.js). *)
Module WorkFilter.

(** [arr.join(' ')] *)
Fixpoint join_space (l : list string) : string :=
  match l with
  | [] => EmptyString
  | [x] => x
  | x :: rest => x +:+ " " +:+ join_space rest
  end.

(** The [data-category] attribute of a work item. *)
Definition data_category (p : Project.t) : string :=
  JsString.toLowerCase (join_space (Project.categories p)).

(** [s.includes(w)] *)
Fixpoint includes (s w : string) : bool :=
  String.prefix w s
  || match s with
     | EmptyString => false
     | String _ s' => includes s' w
     end.

(** Whether a click on the button with [data-filter = filterValue]
    leaves the item displayed. *)
Definition displayed (filterValue : string) (dataCategory : string) : bool :=
  bool_decide (filterValue = "all") || includes dataCategory filterValue.

End WorkFilter.

(** ** More requests and stores for examples *)

Module Cases.

Import Scenario.

(** [ada]'s request as the controllers see it behind the gate. *)
Definition by_ada {B : Type} (i : IdParam) (b : B) : Request B :=
  Auth.with_user (bearer "tok-ada" i b) (Resolved (Some ada)).

(** A title of 101 units. *)
Definition long_title : string :=
  string_of_list_ascii (repeat "a"%char 101).

Definition ai_ops_long_title : Project.payload :=
  Project.Payload (Some long_title) None (Some "Acme")
    (Some "Operations tooling with machine learning")
    (Some "ML for operations") (Some ["AI"; "Web"]) (Some ["Node"; "MongoDB"])
    None (Some "/uploads/projects/project-1.png") None None None None None
    None.

(** A header that announces a token and carries none, beside a cookie
    that would verify. *)
Definition bare_bearer : Request unit :=
  MkRequest (Some "Bearer") (Some "tok-ada") Absent tt None Unset.

Definition cookie_only : Request unit :=
  MkRequest None (Some "tok-ada") Absent tt None Unset.




(** The same photo sent in a field named [avatar]. *)
Definition avatar : File.t := File.Build "avatar" "photo.PNG" "image/png" 1234.






(** An update that sets the client, empties the technologies, features
    the project and gives it a link. *)
Definition restyle : Project.payload :=
  Project.Payload None None (Some " Globex ") None None None (Some []) None
    None None (Some "https://example.com/globex") None (Some true) None None.

(** The Project "Old Title" once updated by [restyle]. *)
Definition restyled : Project.t :=
  Project.Build 1 "Old Title" "old-title" "Globex" "A description" "Short"
    ["Web"] [] [] "/uploads/projects/project-1.png" []
    (Some "https://example.com/globex") None true None 1 1000 1700000000000.

Definition store_restyled : Store :=
  MkStore (users initial_store) (<[1%positive := restyled]> ∅) ∅ [] [].

(** A body without any path, a body whose arrays are empty, and a body
    with a category outside the enum. *)
Definition empty_arrays : Project.payload :=
  Project.Payload (Some "AI & Ops: v2!") None (Some "Acme")
    (Some "Operations tooling with machine learning")
    (Some "ML for operations") (Some []) (Some [])
    None (Some "/uploads/projects/project-1.png") None None None None None
    None.

Definition bogus_category : Project.payload :=
  Project.Payload (Some "AI & Ops: v2!") None (Some "Acme")
    (Some "Operations tooling with machine learning")
    (Some "ML for operations") (Some ["AI"; "Bogus"]) (Some ["Node"])
    None (Some "/uploads/projects/project-1.png") None None None None None
    None.

Definition empty_technologies : Project.payload :=
  Project.Payload None None None None None None (Some []) None None None
    None None None None None.

Definition blank_name : ContactModel.payload :=
  ContactModel.Payload (Some "   ") (Some "Doe")
    (Some "jane.doe@example.com") None (Some "Please call me back").

Definition jane_shouting : ContactModel.payload :=
  ContactModel.Payload (Some "Jane") (Some "Doe")
    (Some "  Jane.Doe@Example.COM ") None (Some "Please call me back").

End Cases.

(** * Properties *)

(** ** The slug of the [pre('save')] hook is the slug of the rule *)

Section SlugRefinement.

Lemma replace_runs_delete (b : bool) (s : string) :
  JsString.replace_runs ProjectModel.not_word_nor_space "" b s
  = SlugRule.keep_word_and_space s.
Proof.
  revert b. induction s as [|c s IH]; intros b; simpl; [reflexivity|].
  unfold ProjectModel.not_word_nor_space at 1.
  destruct (JsString.is_word c || JsString.is_space c); simpl.
  - by rewrite IH.
  - destruct b; simpl; apply IH.
Qed.

Lemma replace_runs_hyphen (s : string) :
  JsString.replace_runs JsString.is_space "-" false s
  = SlugRule.hyphenate_runs s
  /\ (forall c, JsString.is_space c = true ->
        SlugRule.hyphenate_runs (String c s)
        = String "-" (JsString.replace_runs JsString.is_space "-" true s)).
Proof.
  induction s as [|d s [IH1 IH2]].
  - split; [reflexivity|]. intros c Hc. simpl. by rewrite Hc.
  - split.
    + simpl JsString.replace_runs. destruct (JsString.is_space d) eqn:Hd.
      * by rewrite (IH2 d Hd).
      * simpl. by rewrite Hd, IH1.
    + intros c Hc. simpl JsString.replace_runs.
      cbn [SlugRule.hyphenate_runs]. rewrite Hc.
      destruct (JsString.is_space d) eqn:Hd.
      * specialize (IH2 d Hd). simpl in IH2. rewrite Hd in IH2. exact IH2.
      * by rewrite IH1.
Qed.

Lemma slug_of_title_derive (title : string) :
  ProjectModel.slug_of_title title = SlugRule.derive title.
Proof.
  unfold ProjectModel.slug_of_title, SlugRule.derive, JsString.replace_all_plus.
  rewrite replace_runs_delete. apply replace_runs_hyphen.
Qed.

End SlugRefinement.

Section Collections.

Lemma fresh_unused {A : Type} (m : gmap positive A) : m !! fresh (dom m) = None.
Proof. apply not_elem_of_dom, is_fresh. Qed.

Lemma slug_taken_false (ps : gmap positive Project.t) (self : positive) (s : string) :
  (forall k p, ps !! k = Some p -> k ≠ self -> Project.slug p ≠ s) ->
  ProjectModel.slug_taken ps self s = false.
Proof.
  intros H. unfold ProjectModel.slug_taken.
  apply not_true_iff_false. intros Hex.
  apply existsb_exists in Hex as [[k p] [Hin Hkp]].
  apply list_elem_of_In, elem_of_map_to_list in Hin.
  apply andb_true_iff in Hkp as [Hs Hk]. simpl in *.
  apply bool_decide_eq_true in Hs.
  apply negb_true_iff, bool_decide_eq_false in Hk.
  exact (H k p Hin Hk Hs).
Qed.

Lemma slug_taken_true (ps : gmap positive Project.t) (self k : positive) (p : Project.t) :
  ps !! k = Some p -> k ≠ self ->
  ProjectModel.slug_taken ps self (Project.slug p) = true.
Proof.
  intros Hk Hne. unfold ProjectModel.slug_taken.
  apply existsb_exists. exists (k, p). split.
  - by apply list_elem_of_In, elem_of_map_to_list.
  - simpl. apply andb_true_iff. split.
    + by apply bool_decide_eq_true.
    + by apply negb_true_iff, bool_decide_eq_false.
Qed.

End Collections.

Section ProjectCreate.

Import Project ProjectModel ProjectController.

Lemma create_inr (env : Env) (st : Store) (b : payload) (doc : Project.t) (st' : Store) :
  create env st b = inr (doc, st') ->
  projects st !! id doc = None
  /\ st' = MkStore (users st) (<[id doc := doc]> (projects st)) (contacts st) (outbox st) (uploads st)
  /\ title doc = default "" (JsString.trim <$> b_title b)
  /\ slug doc = slug_of_title (title doc).
Proof.
  unfold create. destruct (validate_document (cast b)); [|discriminate].
  destruct (slug_taken _ _ _); [discriminate|].
  intros [= <- <-]. simpl. split; [apply fresh_unused|].
  repeat split.
Qed.

(** C1, as the code has it. For every valid Project payload (the body
    passes the document validation, and no stored Project holds the slug),
    [createProject] answers 201 and stores one new Project whose title is
    the title of the payload after the [trim] setter of the schema and
    whose slug is that stored title lowercased, without the characters that
    are neither word characters nor spaces, each maximal run of spaces
    replaced by one hyphen. Whatever [createProject] stores has such a
    slug, and the title "AI & Ops: v2!" gives "ai-ops-v2". *)
Theorem create_stores_derived_slug :
  (forall (env : Env) (st : Store) (req : Request payload) (u : User.t),
      user req = Resolved (Some u) ->
      validate_document (cast (set_createdBy (body req) (User.id u))) = [] ->
      (forall k p, projects st !! k = Some p ->
         slug p ≠ SlugRule.derive (JsString.trim (default "" (b_title (body req))))) ->
      exists p : Project.t,
        createProject env st req
        = Send (ok_project 201 p)
               (MkStore (users st) (<[id p := p]> (projects st))
                        (contacts st) (outbox st) (uploads st))
        /\ projects st !! id p = None
        /\ title p = JsString.trim (default "" (b_title (body req)))
        /\ slug p = SlugRule.derive (title p))
  /\ (forall (env : Env) (st st' : Store) (req : Request payload)
             (res : Response),
        createProject env st req = Send res st' ->
        exists p : Project.t,
          data res = Some (DProject p)
          /\ projects st' !! id p = Some p
          /\ slug p = SlugRule.derive (title p))
  /\ SlugRule.derive "AI & Ops: v2!" = "ai-ops-v2"
  /\ slug_of_title "AI & Ops: v2!" = "ai-ops-v2".
Proof.
  split; [|split; [|split; reflexivity]].
  - intros env st req u Hu Hvalid Hfree.
    unfold createProject. rewrite Hu.
    unfold create. rewrite Hvalid.
    set (oid := fresh (dom (projects st))).
    set (doc := set_timestamps _ _ _).
    assert (Htitle : title doc = JsString.trim (default "" (b_title (body req)))).
    { subst doc. simpl. by destruct (b_title (body req)). }
    assert (Hslug : slug doc = SlugRule.derive (title doc)).
    { subst doc. simpl. apply slug_of_title_derive. }
    rewrite slug_taken_false.
    + exists doc. repeat split; try done. apply fresh_unused.
    + intros k p Hk _. rewrite Hslug, Htitle. exact (Hfree k p Hk).
  - intros env st st' req res H. unfold createProject in H.
    destruct (user req) as [|[u|]]; try discriminate.
    destruct (create _ _ _) as [err|[doc st1]] eqn:Hc; [discriminate|].
    injection H as <- <-. apply create_inr in Hc as (Hnone & -> & Ht & Hs).
    exists doc. simpl. repeat split.
    + apply lookup_insert_eq.
    + by rewrite Hs, slug_of_title_derive.
Qed.

End ProjectCreate.

Section SlugShape.

Import SlugRule.

Lemma keep_word_and_space_every (s : string) :
  JsString.every word_or_space (SlugRule.keep_word_and_space s) = true.
Proof.
  induction s as [|c s IH]; [reflexivity|]. simpl.
  destruct (JsString.is_word c || JsString.is_space c) eqn:Hc; [|exact IH].
  simpl. unfold word_or_space at 1. by rewrite Hc.
Qed.

Lemma hyphenate_runs_every (s : string) :
  JsString.every word_or_space s = true ->
  JsString.every word_or_hyphen (SlugRule.hyphenate_runs s) = true.
Proof.
  induction s as [|c s IH]; [reflexivity|].
  intros [Hc Hs]%andb_true_iff. specialize (IH Hs).
  simpl. destruct (JsString.is_space c) eqn:Hsp.
  - destruct s as [|d s']; [reflexivity|].
    destruct (JsString.is_space d); [exact IH|]. simpl. exact IH.
  - simpl. rewrite IH, andb_true_r. unfold word_or_hyphen.
    unfold word_or_space in Hc. rewrite Hsp, orb_false_r in Hc.
    by rewrite Hc.
Qed.

Lemma derive_url_safe (title : string) :
  JsString.every word_or_hyphen (SlugRule.derive title) = true.
Proof. apply hyphenate_runs_every, keep_word_and_space_every. Qed.

End SlugShape.

(** ** The matcher decides the language of a pattern *)

Section RegexCorrect.

Import Regex.

Lemma append_cons (c : ascii) (s t : string) :
  String c s +:+ t = String c (s +:+ t).
Proof. reflexivity. Qed.

Lemma append_nil_l (t : string) : "" +:+ t = t.
Proof. reflexivity. Qed.

Lemma append_assoc (s1 s2 s3 : string) :
  (s1 +:+ s2) +:+ s3 = s1 +:+ (s2 +:+ s3).
Proof.
  induction s1 as [|c s1 IH]; [reflexivity|].
  by rewrite !append_cons, IH.
Qed.

Lemma append_nil_r (s : string) : s +:+ "" = s.
Proof.
  induction s as [|c s IH]; [reflexivity|]. by rewrite append_cons, IH.
Qed.

Lemma append_eq_nil (s1 s2 : string) : s1 +:+ s2 = "" -> s1 = "" /\ s2 = "".
Proof.
  destruct s1; [by rewrite append_nil_l|]. rewrite append_cons. discriminate.
Qed.

Lemma append_eq_cons (s1 s2 s : string) (c : ascii) :
  s1 +:+ s2 = String c s ->
  (s1 = "" /\ s2 = String c s)
  \/ (exists s1', s1 = String c s1' /\ s = s1' +:+ s2).
Proof.
  destruct s1 as [|d s1]; [rewrite append_nil_l; by left|].
  rewrite append_cons. intros [= -> <-]. right. by exists s1.
Qed.

Lemma nullable_denotes (r : regex) : nullable r = true <-> denotes r "".
Proof.
  split.
  - induction r as [| |p|r1 IH1 r2 IH2|r1 IH1 r2 IH2|r IH]; simpl;
      try discriminate.
    + intros _. constructor.
    + intros [H1 H2]%andb_true_iff.
      change "" with ("" +:+ ""). constructor; auto.
    + intros [H|H]%orb_true_iff; [apply denotes_alt_l|apply denotes_alt_r];
        auto.
    + intros _. constructor.
  - intros H. remember "" as s eqn:Hs.
    induction H as [|p c Hp|r1 r2 s1 s2 H1 IH1 H2 IH2|r1 r2 s H IH
                    |r1 r2 s H IH|r|r s1 s2 H1 IH1 H2 IH2]; simpl;
      try done.
    + apply append_eq_nil in Hs as [-> ->]. by rewrite IH1, IH2.
    + by rewrite IH.
    + rewrite IH by done. apply orb_true_r.
Qed.

Lemma denotes_void (s : string) : ~ denotes Void s.
Proof. intros H. inversion H. Qed.

Lemma mk_cat_denotes (r1 r2 : regex) (s : string) :
  denotes (mk_cat r1 r2) s <-> denotes (Cat r1 r2) s.
Proof.
  split.
  - destruct r1; simpl;
      try (intros H; by apply denotes_void in H);
      try (destruct r2; simpl; intros H;
           solve [by apply denotes_void in H | exact H
                 | change s with ("" +:+ s); constructor;
                   [constructor|exact H] ]).
  - intros H. inversion H as [| |r1' r2' s1 s2 H1 H2| | | |]; subst.
    destruct r1; simpl;
      try (by apply denotes_void in H1);
      try (destruct r2; simpl;
           solve [by apply denotes_void in H2 | exact H
                 | inversion H1; subst; exact H2 ]).
Qed.

Lemma mk_alt_denotes (r1 r2 : regex) (s : string) :
  denotes (mk_alt r1 r2) s <-> denotes (Alt r1 r2) s.
Proof.
  split.
  - destruct r1; simpl;
      try (intros H; by apply denotes_alt_r);
      try (destruct r2; simpl; intros H;
           solve [exact H | by apply denotes_alt_l]).
  - intros H. inversion H as [| | |r1' r2' s' H1|r1' r2' s' H2| |]; subst.
    + destruct r1; simpl;
        try (by apply denotes_void in H1);
        destruct r2; simpl; solve [exact H | exact H1].
    + destruct r1; simpl; try exact H2;
        destruct r2; simpl;
        solve [exact H | by apply denotes_void in H2].
Qed.

Lemma deriv_sound (c : ascii) (r : regex) (s : string) :
  denotes (deriv c r) s -> denotes r (String c s).
Proof.
  revert s.
  induction r as [| |p|r1 IH1 r2 IH2|r1 IH1 r2 IH2|r IH]; simpl; intros s H.
  - by apply denotes_void in H.
  - by apply denotes_void in H.
  - destruct (p c) eqn:Hp; [|by apply denotes_void in H].
    inversion H; subst. by constructor.
  - destruct (nullable r1) eqn:Hn.
    + apply mk_alt_denotes in H.
      inversion H as [| | |a b s' H1|a b s' H2| |]; subst.
      * apply mk_cat_denotes in H1.
        inversion H1 as [| |a b s1 s2 Ha Hb| | | |]; subst.
        change (String c (s1 +:+ s2)) with (String c s1 +:+ s2).
        constructor; auto.
      * change (String c s) with ("" +:+ String c s).
        constructor; [by apply nullable_denotes|auto].
    + apply mk_cat_denotes in H.
      inversion H as [| |a b s1 s2 Ha Hb| | | |]; subst.
      change (String c (s1 +:+ s2)) with (String c s1 +:+ s2).
      constructor; auto.
  - apply mk_alt_denotes in H.
    inversion H; subst; [apply denotes_alt_l|apply denotes_alt_r]; auto.
  - apply mk_cat_denotes in H.
    inversion H as [| |a b s1 s2 Ha Hb| | | |]; subst.
    change (String c (s1 +:+ s2)) with (String c s1 +:+ s2).
    constructor; auto.
Qed.

Lemma deriv_complete (r : regex) (s0 : string) :
  denotes r s0 ->
  forall (c : ascii) (s : string), s0 = String c s -> denotes (deriv c r) s.
Proof.
  induction 1 as [|p d Hp|r1 r2 s1 s2 H1 IH1 H2 IH2|r1 r2 s' H IH
                  |r1 r2 s' H IH|r|r s1 s2 H1 IH1 H2 IH2];
    intros c s Heq; simpl.
  - discriminate.
  - injection Heq as -> <-. rewrite Hp. constructor.
  - apply append_eq_cons in Heq as [[-> ->]|(s1' & -> & ->)].
    + apply nullable_denotes in H1 as ->.
      apply mk_alt_denotes, denotes_alt_r. by apply IH2.
    + assert (Hd : denotes (mk_cat (deriv c r1) r2) (s1' +:+ s2)).
      { apply mk_cat_denotes. constructor; [by apply IH1|done]. }
      destruct (nullable r1); [|done].
      by apply mk_alt_denotes, denotes_alt_l.
  - apply mk_alt_denotes, denotes_alt_l. by apply IH.
  - apply mk_alt_denotes, denotes_alt_r. by apply IH.
  - discriminate.
  - apply append_eq_cons in Heq as [[-> ->]|(s1' & -> & ->)].
    + by apply IH2.
    + apply mk_cat_denotes. constructor; [by apply IH1|done].
Qed.

Lemma matches_denotes (r : regex) (s : string) :
  matches r s = true <-> denotes r s.
Proof.
  revert r. induction s as [|c s IH]; intros r; simpl.
  - apply nullable_denotes.
  - rewrite IH. split; [apply deriv_sound|].
    intros H. by apply (deriv_complete _ _ H).
Qed.

End RegexCorrect.

Section RegexSearch.

Import Regex.

Lemma denotes_any_star (s : string) : denotes (Star any) s.
Proof.
  induction s as [|c s IH]; [constructor|].
  change (String c s) with (String c "" +:+ s).
  constructor; [by constructor|exact IH].
Qed.

Lemma test_denotes (r : regex) (s : string) :
  test r s = true
  <-> exists pre mid post : string,
        s = pre +:+ mid +:+ post /\ denotes r mid.
Proof.
  unfold test. rewrite matches_denotes. split.
  - intros H. inversion H as [| |a b pre rest Hpre Hrest| | | |]; subst.
    inversion Hrest as [| |a b mid post Hmid Hpost| | | |]; subst.
    by exists pre, mid, post.
  - intros (pre & mid & post & -> & Hmid).
    constructor; [apply denotes_any_star|].
    constructor; [exact Hmid|apply denotes_any_star].
Qed.

Lemma denotes_str (w s : string) : denotes (str w) s <-> s = w.
Proof.
  revert s. induction w as [|c w IH]; intros s; simpl.
  - split; [by inversion 1|intros ->; constructor].
  - split.
    + intros H. inversion H as [| |a b s1 s2 H1 H2| | | |]; subst.
      inversion H1 as [|p d Hd| | | | |]; subst.
      apply bool_decide_eq_true in Hd as ->.
      apply IH in H2 as ->. reflexivity.
    + intros ->. change (String c w) with (String c "" +:+ w).
      constructor; [constructor; by apply bool_decide_eq_true|by apply IH].
Qed.

Lemma denotes_alt (r1 r2 : regex) (s : string) :
  denotes (Alt r1 r2) s <-> denotes r1 s \/ denotes r2 s.
Proof.
  split.
  - intros H. inversion H; subst; auto.
  - intros [H|H]; [by apply denotes_alt_l|by apply denotes_alt_r].
Qed.

Lemma denotes_filetypes (s : string) :
  denotes Upload.filetypes s <-> s ∈ image_words.
Proof.
  unfold Upload.filetypes, image_words.
  rewrite !denotes_alt, !denotes_str, !elem_of_cons, elem_of_nil. tauto.
Qed.

Lemma test_filetypes (s : string) :
  test Upload.filetypes s = true
  <-> exists w : string, w ∈ image_words /\ occurs_in w s.
Proof.
  rewrite test_denotes. split.
  - intros (pre & mid & post & -> & Hmid%denotes_filetypes).
    exists mid. split; [done|]. by exists pre, post.
  - intros (w & Hw%denotes_filetypes & pre & post & ->).
    by exists pre, w, post.
Qed.

(** X27. [checkFileType] accepts a file exactly when one of the words
    jpeg, jpg, png, webp occurs somewhere in the lower-cased extension of
    its original name and one of them occurs somewhere in its declared
    content type, which is compared as sent (an upper-case type is
    refused). *)
Lemma checkFileType_accepts (f : File.t) :
  Upload.checkFileType f = None
  <-> (exists w : string,
          w ∈ image_words
          /\ occurs_in w (JsString.toLowerCase
                            (Path.extname (File.originalname f))))
      /\ (exists w : string,
             w ∈ image_words /\ occurs_in w (File.mimetype f)).
Proof.
  unfold Upload.checkFileType. rewrite <- !test_filetypes.
  destruct (test Upload.filetypes (File.mimetype f)),
           (test Upload.filetypes
              (JsString.toLowerCase (Path.extname (File.originalname f))));
    simpl; split; try done; intros [? ?]; done.
Qed.

End RegexSearch.

Section ErrorMiddleware.

Lemma errorHandler_ErrorResponse (msg : string) (code : Z) :
  code ≠ 0 -> msg ≠ "" ->
  errorHandler (ErrorResponse msg code) = failure code msg.
Proof.
  intros Hc Hm. unfold errorHandler, errorHandler_error, failure. simpl.
  destruct (Z.eqb_spec code 0) as [->|_]; [done|].
  destruct msg; [done|reflexivity].
Qed.

Lemma errorHandler_not_authorized :
  errorHandler Auth.not_authorized = unauthorized_401.
Proof. reflexivity. Qed.

Lemma errorHandler_forbidden_role (role : string) :
  errorHandler (Auth.forbidden_role role) = forbidden_403 role.
Proof. reflexivity. Qed.

(** C8. A storage-layer duplicate-key error (driver code 11000, which
    is not a Mongoose validation error) is answered by the error
    middleware with status 400 and the envelope [{success: false, error:
    "Duplicate field value entered"}], whatever the message of the driver
    was. *)
Theorem duplicate_key_is_400 (err : JsError) :
  e_code err = Some 11000 ->
  e_name err ≠ "ValidationError" ->
  errorHandler err = failure 400 "Duplicate field value entered"
  /\ success (errorHandler err) = false.
Proof.
  intros Hcode Hname. unfold errorHandler, errorHandler_error.
  rewrite (bool_decide_eq_true_2 _ Hcode).
  rewrite (bool_decide_eq_false_2 _ Hname).
  split; reflexivity.
Qed.

End ErrorMiddleware.

Section Gate.

Context {B : Type}.
Implicit Types (env : Env) (st : Store) (req : Request B) (u : User.t).

Lemma protect_authenticated env st req u :
  authenticated env st req u ->
  Auth.protect env st req = Next (Auth.with_user req (Resolved (Some u))) st.
Proof.
  intros (tok & uid & Htok & Htruthy & Hverify & Hu).
  unfold Auth.protect. rewrite Htok, Htruthy, Hverify, Hu. reflexivity.
Qed.


Lemma authorize_member env st req u roles :
  user req = Resolved (Some u) -> User.role u ∈ roles ->
  Auth.authorize roles env st req = Next req st.
Proof.
  intros Hu Hin. unfold Auth.authorize. rewrite Hu.
  by rewrite (bool_decide_eq_true_2 _ Hin).
Qed.

Lemma authorize_other env st req u roles :
  user req = Resolved (Some u) -> User.role u ∉ roles ->
  Auth.authorize roles env st req = Fail (Auth.forbidden_role (User.role u)) st.
Proof.
  intros Hu Hin. unfold Auth.authorize. rewrite Hu.
  by rewrite (bool_decide_eq_false_2 _ Hin).
Qed.

Lemma gate_passes env st req u roles (hs : list (Handler B)) :
  authenticated env st req u -> User.role u ∈ roles ->
  run_chain (Auth.protect :: Auth.authorize roles :: hs) env st req
  = run_chain hs env st (Auth.with_user req (Resolved (Some u))).
Proof.
  intros Hauth Hin. simpl.
  rewrite (protect_authenticated _ _ _ _ Hauth).
  by rewrite (authorize_member _ _ _ u).
Qed.

Lemma gate_refuses env st req u roles (hs : list (Handler B)) :
  authenticated env st req u -> User.role u ∉ roles ->
  run_chain (Auth.protect :: Auth.authorize roles :: hs) env st req
  = (Responded (forbidden_403 (User.role u)), st).
Proof.
  intros Hauth Hin. simpl.
  rewrite (protect_authenticated _ _ _ _ Hauth).
  by rewrite (authorize_other _ _ _ u).
Qed.


End Gate.

Lemma only_admin (role : string) : role ∈ ["admin"] <-> role = "admin".
Proof. rewrite list_elem_of_singleton. reflexivity. Qed.

Section ProjectRoutes.

Import Project ProjectModel ProjectController.



End ProjectRoutes.

Section ContactRoutes.

Import ContactController ContactManagement.

Lemma status_is_member (s : string) :
  s ∈ ContactModel.status_enum -> ContactModel.check_status s = [].
Proof.
  intros Hin. unfold ContactModel.check_status.
  by rewrite (bool_decide_eq_true_2 _ Hin).
Qed.

(** C9, as the code has it. Every Contact management route starts with
    [protect, authorize('admin')]: an authenticated admin reaches the
    controller, an authenticated user of any other role, editor included,
    gets 403 and the store is unchanged. Updating the status of an existing
    Contact to a member of the status enum stores the status and sets
    [lastUpdated] to the time of the request. *)
Theorem contact_management_is_admin_only :
  (forall (B : Type) (env : Env) (st : Store) (req : Request B) (u : User.t)
          (h : Handler B),
      authenticated env st req u ->
      (User.role u = "admin" ->
       run_chain (management_gate ++ [h]) env st req
       = run_chain [h] env st (Auth.with_user req (Resolved (Some u))))
      /\ (User.role u ≠ "admin" ->
          run_chain (management_gate ++ [h]) env st req
          = (Responded (forbidden_403 (User.role u)), st)))
  /\ (forall (env : Env) (st : Store) (req : Request string) (k : ObjectId)
             (c : Contact.t),
        param_id req = WellFormed k ->
        contacts st !! k = Some c ->
        body req ∈ ContactModel.status_enum ->
        exists c' : Contact.t,
          updateContact env st req
          = Send (ok_contact c')
                 (MkStore (users st) (projects st)
                          (<[k := c']> (contacts st)) (outbox st)
                          (uploads st))
          /\ Contact.status c' = body req
          /\ Contact.lastUpdated c' = now env).
Proof.
  split.
  - intros B env st req u h Hauth. split; intros Hrole.
    + apply gate_passes; [done|]. by rewrite only_admin.
    + apply gate_refuses; [done|]. by rewrite only_admin.
  - intros env st req k c Hid Hc Hin. unfold updateContact.
    rewrite Hid, Hc, (status_is_member _ Hin).
    eexists. split; [reflexivity|]. split; reflexivity.
Qed.

End ContactRoutes.

Section DanglingToken.

(** C10. When the request carries a token that [jwt.verify] accepts
    and no User has the decoded id, [protect] assigns [null] to [req.user]
    and calls [next()] instead of failing with 401; [authorize] then reads
    [role] of [null], which throws, and the route answers 500. *)
Theorem dangling_token_reaches_role_check
        {B : Type} (env : Env) (st : Store) (req : Request B)
        (tok : string) (uid : ObjectId) :
  Auth.extract_token req = Some tok ->
  Auth.truthy (Some tok) = true ->
  jwt_verify env tok = Some uid ->
  users st !! uid = None ->
  Auth.protect env st req = Next (Auth.with_user req (Resolved None)) st
  /\ (forall roles : list string,
        Auth.authorize roles env st (Auth.with_user req (Resolved None))
        = Fail (TypeError "Cannot read property 'role' of null") st)
  /\ (forall (roles : list string) (hs : list (Handler B)),
        run_chain (Auth.protect :: Auth.authorize roles :: hs) env st req
        = (Responded (failure 500 "Cannot read property 'role' of null"),
           st)).
Proof.
  intros Htok Htruthy Hverify Hnone.
  assert (Hp : Auth.protect env st req
               = Next (Auth.with_user req (Resolved None)) st).
  { unfold Auth.protect. by rewrite Htok, Htruthy, Hverify, Hnone. }
  split; [exact Hp|]. split.
  - reflexivity.
  - intros roles hs. simpl. rewrite Hp. reflexivity.
Qed.

End DanglingToken.

Section UpdateSlug.

Import Project ProjectModel.

Lemma update_keeps_slug (env : Env) (st st' : Store) (k : ObjectId)
      (b : payload) (p p' : Project.t) :
  projects st !! k = Some p ->
  b_slug b = None ->
  findByIdAndUpdate env st (WellFormed k) b = inr (Some p', st') ->
  slug p' = slug p
  /\ title p' = default (title p) (JsString.trim <$> b_title b)
  /\ projects st' !! k = Some p'.
Proof.
  intros Hp Hslug. unfold findByIdAndUpdate. rewrite Hp.
  destruct (validate_update (cast b)); [|discriminate].
  destruct (slug_taken _ _ _); [discriminate|].
  intros [= <- <-]. simpl. rewrite Hslug. repeat split.
  apply lookup_insert_eq.
Qed.

End UpdateSlug.

Section UploadOutcomes.

Context {B : Type}.

Lemma upload_takes_image_field (env : Env) (st : Store) (req : Request B)
      (f : File.t) :
  file req = Some f ->
  File.originalname f ≠ "" ->
  File.fieldname f = "image" ->
  Upload.upload env st req
  = match Upload.checkFileType f with
    | Some msg => inl msg
    | None =>
        if Upload.fileSize <? File.size f then inl "File too large"
        else inr (Some (Upload.filename env f),
                  MkStore (users st) (projects st) (contacts st) (outbox st)
                          (uploads st ++ [Upload.filename env f]))
    end.
Proof.
  intros Hf Hname Hfield. unfold Upload.upload. rewrite Hf.
  destruct (File.originalname f) eqn:Hn; [done|]. cbn [JsString.is_empty].
  by rewrite (bool_decide_eq_true_2 _ Hfield).
Qed.

Lemma upload_rejection_is_400 (env : Env) (st : Store) (req : Request B)
      (f : File.t) :
  file req = Some f ->
  File.originalname f ≠ "" ->
  File.fieldname f = "image" ->
  Upload.checkFileType f ≠ None \/ Upload.fileSize < File.size f ->
  exists msg : string,
    Upload.uploadProjectImage env st req = Fail (ErrorResponse msg 400) st.
Proof.
  intros Hf Hname Hfield Hbad. unfold Upload.uploadProjectImage.
  rewrite (upload_takes_image_field _ _ _ f) by done.
  destruct (Upload.checkFileType f) as [msg|]; [by exists msg|].
  destruct Hbad as [Hbad|Hbad]; [done|].
  apply Z.ltb_lt in Hbad. rewrite Hbad. by eexists.
Qed.


End UploadOutcomes.

Section ContactSubmission.

Import ContactModel ContactController.

Implicit Types (env : Env) (st : Store) (req : Request payload)
         (b : payload).

Lemma present_not_blank (v : option string) :
  present v = true ->
  check_required "x" (JsString.trim (default "" v)) = [].
Proof.
  destruct v as [s|]; [|discriminate]. simpl. unfold check_required.
  by intros ->%negb_true_iff.
Qed.

Lemma check_required_nil (m1 m2 v : string) :
  check_required m1 v = [] -> check_required m2 v = [].
Proof. unfold check_required. by destruct (JsString.is_empty v). Qed.

Lemma check_email_match (v : string) :
  Regex.test_anchored email_pattern v = true -> check_email v = [].
Proof.
  intros Hm. unfold check_email. destruct v; [discriminate Hm|].
  simpl JsString.is_empty. cbv iota. by rewrite Hm.
Qed.

Lemma check_email_mismatch (v : string) :
  Regex.test_anchored email_pattern v = false -> check_email v ≠ [].
Proof.
  intros Hm. unfold check_email.
  destruct (JsString.is_empty v); [done|]. by rewrite Hm.
Qed.

Lemma validate_well_formed (oid : ObjectId) b (d t : Z) :
  well_formed b = true -> validate (construct oid b "new" d t) = [].
Proof.
  unfold well_formed.
  intros [[[Hf Hl]%andb_true_iff Hm]%andb_true_iff He]%andb_true_iff.
  unfold validate, construct. cbn [Contact.firstName Contact.lastName Contact.email Contact.message Contact.status].
  rewrite (check_required_nil _ _ _ (present_not_blank _ Hf)).
  rewrite (check_required_nil _ _ _ (present_not_blank _ Hl)).
  rewrite (check_required_nil _ _ _ (present_not_blank _ Hm)).
  destruct (b_email b) as [e|]; [|discriminate].
  change (default "" (Some e)) with e.
  rewrite (check_email_match _ He). reflexivity.
Qed.

Lemma save_inr st (c : Contact.t) (st1 : Store) :
  save st c = inr st1 ->
  st1 = MkStore (users st) (projects st) (<[Contact.id c := c]> (contacts st))
                (outbox st) (uploads st).
Proof. unfold save. destruct (validate c); [by intros [= <-]|discriminate]. Qed.

(** C4, as the code has it. A well-formed contact body makes
    [submitContact] persist exactly one new Contact, under a fresh id, with
    status "new"; the response is 201 with [success: true] when the
    transport accepts both notification mails. *)
Theorem well_formed_contact_is_stored env st req :
  well_formed (body req) = true ->
  exists (c : Contact.t) (res : Response) (st' : Store),
    submitContact env st req = Send res st'
    /\ contacts st !! Contact.id c = None
    /\ contacts st' = <[Contact.id c := c]> (contacts st)
    /\ size (contacts st') = S (size (contacts st))
    /\ Contact.status c = "new"
    /\ (smtp_accepts env (admin_mail (body req)) = true ->
        smtp_accepts env (user_mail (body req)) = true ->
        res = submitted /\ status res = 201 /\ success res = true).
Proof.
  intros Hwf. exists (newContact env st (body req)).
  assert (Hfresh : contacts st !! Contact.id (newContact env st (body req)) = None)
    by apply fresh_unused.
  unfold submitContact, save.
  unfold newContact at 1. rewrite (validate_well_formed _ _ _ _ Hwf).
  unfold sendEmail. cbn [outbox users projects contacts uploads].
  destruct (smtp_accepts env (admin_mail (body req))) eqn:Ha;
    [destruct (smtp_accepts env (user_mail (body req))) eqn:Hu|];
    eexists; eexists; (split; [reflexivity|]);
    cbn [contacts]; repeat split; try done;
    by apply map_size_insert_None.
Qed.

(** C5. A success response of [submitContact] is only sent after the
    mail to the administrators and the mail to the submitter were both
    accepted, in this order; when the Contact was saved and either mail is
    refused, the response is the generic 500 and the saved Contact is still
    in the collection. *)
Theorem notifications_precede_success env st req :
  (forall (res : Response) (st' : Store),
      submitContact env st req = Send res st' ->
      success res = true ->
      res = submitted
      /\ smtp_accepts env (admin_mail (body req)) = true
      /\ smtp_accepts env (user_mail (body req)) = true
      /\ outbox st'
         = (outbox st ++ [admin_mail (body req); user_mail (body req)])%list
      /\ mail_to (admin_mail (body req)) = "admin@peaktech.com"
      /\ mail_to (user_mail (body req)) = interpolate (b_email (body req)))
  /\ (forall st1 : Store,
        save st (newContact env st (body req)) = inr st1 ->
        smtp_accepts env (admin_mail (body req)) = false
        \/ smtp_accepts env (user_mail (body req)) = false ->
        exists st' : Store,
          submitContact env st req = Send problem st'
          /\ status problem = 500
          /\ success problem = false
          /\ contacts st' = contacts st1
          /\ contacts st' !! Contact.id (newContact env st (body req))
             = Some (newContact env st (body req))).
Proof.
  split.
  - intros res st' Hrun Hok. unfold submitContact in Hrun.
    destruct (save st (newContact env st (body req))) as [err|st1] eqn:Hsave;
      [injection Hrun as <- <-; discriminate Hok|].
    unfold sendEmail in Hrun.
    destruct (smtp_accepts env (admin_mail (body req))) eqn:Ha;
      [|injection Hrun as <- <-; discriminate Hok].
    cbn [outbox users projects contacts uploads] in Hrun.
    destruct (smtp_accepts env (user_mail (body req))) eqn:Hu;
      [|injection Hrun as <- <-; discriminate Hok].
    injection Hrun as <- <-. apply save_inr in Hsave as ->.
    cbn [outbox]. rewrite <- app_assoc. repeat split.
  - intros st1 Hsave Hdown. unfold submitContact. rewrite Hsave.
    pose proof (save_inr _ _ _ Hsave) as ->.
    unfold sendEmail. cbn [outbox users projects contacts uploads].
    destruct (smtp_accepts env (admin_mail (body req))) eqn:Ha.
    + destruct Hdown as [Hdown|Hdown]; [discriminate|]. rewrite Hdown.
      eexists. split; [reflexivity|]. cbn [contacts].
      repeat split. apply lookup_insert_eq.
    + eexists. split; [reflexivity|]. cbn [contacts].
      repeat split. apply lookup_insert_eq.
Qed.

Lemma validate_email_nil (c : Contact.t) :
  validate c = [] -> check_email (Contact.email c) = [].
Proof.
  unfold validate. intros H.
  apply app_eq_nil in H as [_ H]. apply app_eq_nil in H as [_ H].
  by apply app_eq_nil in H as [H _].
Qed.

(** C6, as the code has it. When the email of the body, after the
    [trim] and [lowercase] setters, does not match the email pattern,
    [save] fails with a ValidationError, nothing is stored or mailed, and
    the response is the generic 500 of the [catch] block. *)
Theorem unmatched_email_is_generic_500 env st req (e : string) :
  b_email (body req) = Some e ->
  Regex.test_anchored email_pattern (cast_email e) = false ->
  (exists msgs : list string,
      msgs ≠ []
      /\ save st (newContact env st (body req))
         = inl (ValidationError "Contact" msgs))
  /\ submitContact env st req = Send problem st
  /\ status problem = 500
  /\ success problem = false.
Proof.
  intros He Hm.
  assert (Hv : validate (newContact env st (body req)) ≠ []).
  { intros Hnil%validate_email_nil. revert Hnil.
    unfold newContact, construct. cbn [Contact.email]. rewrite He.
    by apply check_email_mismatch. }
  unfold submitContact, save.
  destruct (validate (newContact env st (body req))) as [|m ms] eqn:Hval; [done|].
  split; [|repeat split]. by exists (m :: ms).
Qed.

End ContactSubmission.

(** ** The theorems on the concrete deployment *)

Section Examples.

Import Scenario.

Lemma eve_is_authenticated {B : Type} (i : IdParam) (b : B) (st : Store) :
  users st = users initial_store ->
  authenticated env_up st (bearer "tok-eve" i b) eve.
Proof.
  intros Hu. exists "tok-eve", 2%positive. rewrite Hu.
  repeat split; reflexivity.
Qed.

Lemma ada_is_authenticated {B : Type} (i : IdParam) (b : B) (st : Store) :
  users st = users initial_store ->
  authenticated env_up st (bearer "tok-ada" i b) ada.
Proof.
  intros Hu. exists "tok-ada", 1%positive. rewrite Hu.
  repeat split; reflexivity.
Qed.

Lemma create_stores_derived_slug_witness :
  (exists p : Project.t,
      ProjectController.createProject env_up initial_store
        (Auth.with_user (bearer "tok-ada" Absent ai_ops)
                        (Resolved (Some ada)))
      = Send (ProjectController.ok_project 201 p)
             (MkStore (users initial_store)
                      (<[Project.id p := p]> (projects initial_store))
                      (contacts initial_store) (outbox initial_store)
                      (uploads initial_store))
      /\ projects initial_store !! Project.id p = None
      /\ Project.title p
         = JsString.trim (default "" (Project.b_title ai_ops))
      /\ Project.slug p = SlugRule.derive (Project.title p))
  /\ (exists p : Project.t,
         data (ProjectController.ok_project 201 ai_ops_project)
         = Some (DProject p)
         /\ projects store_with_ai_ops !! Project.id p = Some p
         /\ Project.slug p = SlugRule.derive (Project.title p)).
Proof.
  split.
  - apply (proj1 create_stores_derived_slug env_up initial_store
                 (Auth.with_user (bearer "tok-ada" Absent ai_ops)
                                 (Resolved (Some ada))) ada).
    + reflexivity.
    + vm_compute. reflexivity.
    + intros k p Hk. vm_compute in Hk. discriminate Hk.
  - apply (proj1 (proj2 create_stores_derived_slug) env_up initial_store
                 store_with_ai_ops
                 (Auth.with_user (bearer "tok-ada" Absent ai_ops)
                                 (Resolved (Some ada)))).
    vm_compute. reflexivity.
Defined.

(** C1 as stated fails: the title " Hello World " is stored trimmed and
    gets the slug "hello-world", where the rule applied to the title of the
    payload gives "-hello-world-". *)
Lemma padded_title_gets_slug_of_stored_title :
  ~ SpecStatements.slug_is_rule_on_payload_title.
Proof.
  intros H.
  set (req := Auth.with_user (bearer "tok-ada" Absent padded_title)
                             (Resolved (Some ada))).
  destruct (ProjectController.createProject env_up initial_store req)
    as [r s|res st'|err s|s] eqn:Hrun;
    try (vm_compute in Hrun; discriminate Hrun).
  destruct (H env_up initial_store st' req res " Hello World " eq_refl Hrun)
    as (p & Hdata & _ & Hslug).
  vm_compute in Hrun. injection Hrun as <- <-.
  injection Hdata as <-. vm_compute in Hslug. discriminate Hslug.
Qed.

Example post_padded_title_stores_slug :
  exists (p : Project.t) (st' : Store),
    run_chain ProjectController.post_project env_up initial_store
              (bearer "tok-ada" Absent padded_title)
    = (Responded (ProjectController.ok_project 201 p), st')
    /\ Project.title p = "Hello World"
    /\ Project.slug p = "hello-world"
    /\ SlugRule.derive " Hello World " = "-hello-world-".
Proof.
  eexists. eexists. split; [vm_compute; reflexivity|].
  repeat split; vm_compute; reflexivity.
Qed.

Example post_ai_ops_stores_slug :
  exists (p : Project.t) (st' : Store),
    run_chain ProjectController.post_project env_up initial_store
              (bearer "tok-ada" Absent ai_ops)
    = (Responded (ProjectController.ok_project 201 p), st')
    /\ projects st' !! Project.id p = Some p
    /\ Project.title p = "AI & Ops: v2!"
    /\ Project.slug p = "ai-ops-v2"
    /\ Project.createdBy p = User.id ada.
Proof.
  eexists. eexists. split; [vm_compute; reflexivity|].
  repeat split; vm_compute; reflexivity.
Qed.

(** C2. Evaluation of the update route where the invariant breaks: an
    admin renames the Project "Old Title" (slug "old-title") to "New
    Title"; the route answers 200, the stored title is "New Title" and the
    stored slug is still "old-title", not "new-title". *)
Theorem update_leaves_stale_slug :
  exists (p' : Project.t) (st' : Store),
    run_chain ProjectController.put_project env_up (store_with old_title)
              (bearer "tok-ada" (WellFormed 1) rename)
    = (Responded (ProjectController.ok_project 200 p'), st')
    /\ projects st' !! 1%positive = Some p'
    /\ Project.title p' = "New Title"
    /\ Project.slug p' = "old-title"
    /\ SlugRule.derive (Project.title p') = "new-title"
    /\ ProjectModel.slug_of_title (Project.title p') = "new-title".
Proof.
  eexists. eexists. split; [vm_compute; reflexivity|].
  repeat split; vm_compute; reflexivity.
Qed.



(** C4 as stated fails: a well-formed body with a transport that
    refuses the mails is answered [success: false]. *)
Lemma failed_notification_reports_failure :
  ~ SpecStatements.well_formed_contact_succeeds.
Proof.
  intros H.
  destruct (H env_smtp_down initial_store (submission jane) eq_refl)
    as (c & res & st' & Hrun & _ & _ & _ & Hok).
  vm_compute in Hrun. injection Hrun as <- <-. discriminate Hok.
Qed.

Lemma well_formed_contact_is_stored_witness :
  exists (c : Contact.t) (res : Response) (st' : Store),
    ContactController.submitContact env_up initial_store (submission jane)
    = Send res st'
    /\ contacts initial_store !! Contact.id c = None
    /\ contacts st' = <[Contact.id c := c]> (contacts initial_store)
    /\ size (contacts st') = S (size (contacts initial_store))
    /\ Contact.status c = "new"
    /\ (smtp_accepts env_up (ContactController.admin_mail jane) = true ->
        smtp_accepts env_up (ContactController.user_mail jane) = true ->
        res = ContactController.submitted
        /\ status res = 201 /\ success res = true).
Proof.
  apply (well_formed_contact_is_stored env_up initial_store (submission jane)).
  vm_compute. reflexivity.
Defined.

Lemma notifications_precede_success_witness :
  (ContactController.submitted = ContactController.submitted
   /\ smtp_accepts env_up (ContactController.admin_mail
                             (body (submission jane))) = true
   /\ smtp_accepts env_up (ContactController.user_mail
                             (body (submission jane))) = true
   /\ outbox delivered_jane
      = (outbox initial_store
         ++ [ContactController.admin_mail (body (submission jane));
             ContactController.user_mail (body (submission jane))])%list
   /\ mail_to (ContactController.admin_mail (body (submission jane)))
      = "admin@peaktech.com"
   /\ mail_to (ContactController.user_mail (body (submission jane)))
      = ContactController.interpolate
          (ContactModel.b_email (body (submission jane))))
  /\ (exists st' : Store,
         ContactController.submitContact env_user_mail_down initial_store
                                         (submission jane)
         = Send ContactController.problem st'
         /\ status ContactController.problem = 500
         /\ success ContactController.problem = false
         /\ contacts st' = contacts saved_jane
         /\ contacts st'
            !! Contact.id (ContactController.newContact env_user_mail_down
                             initial_store (body (submission jane)))
            = Some (ContactController.newContact env_user_mail_down
                      initial_store (body (submission jane)))).
Proof.
  split.
  - apply (proj1 (notifications_precede_success env_up initial_store
                    (submission jane))
                 ContactController.submitted delivered_jane).
    + vm_compute. reflexivity.
    + reflexivity.
  - apply (proj2 (notifications_precede_success env_user_mail_down
                    initial_store (submission jane)) saved_jane).
    + vm_compute. reflexivity.
    + right. vm_compute. reflexivity.
Defined.

(** C6 as stated fails: the email "not-an-email" is answered 500, not
    400. *)
Lemma invalid_email_gets_500_not_400 :
  ~ SpecStatements.invalid_email_is_400.
Proof.
  intros H.
  destruct (H env_up initial_store (submission jane_bad_email) "not-an-email"
              eq_refl eq_refl) as (res & Hrun & Hstatus).
  vm_compute in Hrun. injection Hrun as <-. discriminate Hstatus.
Qed.

Lemma unmatched_email_is_generic_500_witness :
  (exists msgs : list string,
      msgs ≠ []
      /\ ContactModel.save initial_store
           (ContactController.newContact env_up initial_store jane_bad_email)
         = inl (ValidationError "Contact" msgs))
  /\ ContactController.submitContact env_up initial_store
       (submission jane_bad_email)
     = Send ContactController.problem initial_store
  /\ status ContactController.problem = 500
  /\ success ContactController.problem = false.
Proof.
  apply (unmatched_email_is_generic_500 env_up initial_store
           (submission jane_bad_email) "not-an-email").
  - reflexivity.
  - vm_compute. reflexivity.
Defined.

(** C7. Evaluation of the upload middleware on a file outside the
    allow-list: "notes.pngx", declared as image/png, 10 bytes. Its
    extension is none of .jpeg, .jpg, .png, .webp, the filter accepts it,
    and the response is 200 with a stored path. *)
Theorem upload_accepts_extension_outside_allow_list :
  File.originalname pngx = "notes.pngx"
  /\ (JsString.toLowerCase (Path.extname (File.originalname pngx))
      ∉ allowed_extensions)
  /\ Upload.checkFileType pngx = None
  /\ Upload.uploadProjectImage env_up initial_store upload_request
     = Send (MkResponse 200 true
               (Some (DFile "project-1700000000000.pngx"
                        "/uploads/projects/project-1700000000000.pngx"))
               None None None)
            (MkStore (users initial_store) ∅ ∅ []
                     ["project-1700000000000.pngx"]).
Proof.
  split; [reflexivity|]. split.
  - vm_compute. intros H. 
    repeat (apply elem_of_cons in H as [H|H]; [discriminate H|]).
    by apply elem_of_nil in H.
  - split; vm_compute; reflexivity.
Qed.

Lemma duplicate_key_is_400_witness :
  errorHandler (DuplicateKeyError "slug_1")
  = failure 400 "Duplicate field value entered"
  /\ success (errorHandler (DuplicateKeyError "slug_1")) = false.
Proof.
  apply (duplicate_key_is_400 (DuplicateKeyError "slug_1")).
  - reflexivity.
  - discriminate.
Defined.

(** C9 as stated fails: an editor is answered 403 by the Contact
    management routes. *)
Lemma editor_is_refused_by_contact_routes :
  ~ SpecStatements.admin_or_editor_may_manage.
Proof.
  intros H.
  destruct (H unit env_up initial_store (bearer "tok-eve" Absent tt) eve
              ContactController.getContacts
              (eve_is_authenticated _ _ _ eq_refl)) as [Hpass _].
  assert (Hin : User.role eve ∈ ["admin"; "editor"]).
  { apply elem_of_cons. right. apply elem_of_cons. by left. }
  specialize (Hpass Hin). vm_compute in Hpass. discriminate Hpass.
Qed.

Lemma contact_management_is_admin_only_witness :
  run_chain (ContactController.management_gate
               ++ [ContactController.getContacts])
            env_up initial_store (bearer "tok-eve" Absent tt)
  = (Responded (forbidden_403 (User.role eve)), initial_store)
  /\ exists c' : Contact.t,
       ContactManagement.updateContact env_up store_with_contact
         (bearer "tok-ada" (WellFormed 1) "contacted")
       = Send (ContactManagement.ok_contact c')
              (MkStore (users store_with_contact)
                       (projects store_with_contact)
                       (<[1%positive := c']> (contacts store_with_contact))
                       (outbox store_with_contact)
                       (uploads store_with_contact))
       /\ Contact.status c' = "contacted"
       /\ Contact.lastUpdated c' = now env_up.
Proof.
  split.
  - apply (proj1 contact_management_is_admin_only unit env_up initial_store
                 (bearer "tok-eve" Absent tt) eve
                 ContactController.getContacts).
    + apply eve_is_authenticated. reflexivity.
    + discriminate.
  - apply (proj2 contact_management_is_admin_only env_up store_with_contact
                 (bearer "tok-ada" (WellFormed 1) "contacted") 1%positive
                 a_contact).
    + reflexivity.
    + reflexivity.
    + apply elem_of_cons. right. apply elem_of_cons. by left.
Defined.

Lemma dangling_token_reaches_role_check_witness :
  Auth.protect env_up initial_store (bearer "tok-ghost" Absent tt)
  = Next (Auth.with_user (bearer "tok-ghost" Absent tt) (Resolved None))
         initial_store
  /\ (forall roles : list string,
        Auth.authorize roles env_up initial_store
          (Auth.with_user (bearer "tok-ghost" Absent tt) (Resolved None))
        = Fail (TypeError "Cannot read property 'role' of null") initial_store)
  /\ (forall (roles : list string) (hs : list (Handler unit)),
        run_chain (Auth.protect :: Auth.authorize roles :: hs) env_up
                  initial_store (bearer "tok-ghost" Absent tt)
        = (Responded (failure 500 "Cannot read property 'role' of null"),
           initial_store)).
Proof.
  apply (dangling_token_reaches_role_check env_up initial_store
           (bearer "tok-ghost" Absent tt) "tok-ghost" 9%positive).
  - reflexivity.
  - reflexivity.
  - reflexivity.
  - reflexivity.
Defined.

End Examples.

(** * More of the code *)

(** ** The public Project queries *)

Section Queries.

Import Project ProjectQueries.

Context {B : Type}.
Implicit Types (env : Env) (st : Store) (req : Request B).

Lemma elem_of_find st (f : Project.t -> bool) (p : Project.t) :
  p ∈ find st f <-> (exists k, projects st !! k = Some p) /\ f p = true.
Proof.
  unfold find. rewrite list_elem_of_In, filter_In, <- list_elem_of_In.
  rewrite list_elem_of_fmap. split.
  - intros [([k q] & -> & Hin) Hf]. split; [|done].
    exists k. by apply elem_of_map_to_list.
  - intros [[k Hk] Hf]. split; [|done].
    exists (k, p). split; [done|]. by apply elem_of_map_to_list.
Qed.

Lemma find_all st : find st (fun _ => true) = snd <$> map_to_list (projects st).
Proof.
  unfold find. induction (snd <$> map_to_list (projects st)) as [|x l IH];
    simpl; [done|by rewrite IH].
Qed.

(** X1. [GET /api/projects] needs no credentials and changes nothing: it
    answers 200 with the stored Projects, each of them and nothing else,
    and [count] is the size of the collection. *)
Theorem getProjects_lists_the_collection env st req :
  exists ps : list Project.t,
    run_chain get_projects env st req = (Responded (ok_list ps), st)
    /\ (forall p, p ∈ ps <-> exists k, projects st !! k = Some p)
    /\ length ps = size (projects st)
    /\ count (ok_list ps) = Some (size (projects st)).
Proof.
  exists (find st (fun _ => true)). split; [reflexivity|].
  assert (Hlen : length (find st (fun _ => true)) = size (projects st)).
  { by rewrite find_all, length_fmap, length_map_to_list. }
  split; [|split; [done|by simpl; rewrite Hlen]].
  intros p. rewrite elem_of_find. split; [by intros [? _]|done].
Qed.

Lemma filter_values (f : Project.t -> bool)
      (l : list (positive * Project.t)) :
  List.filter f (snd <$> l) = snd <$> filter (fun kp => f kp.2 = true) l.
Proof.
  induction l as [|[k p] l IH]; [reflexivity|].
  rewrite filter_cons. cbn [fmap list_fmap List.filter snd].
  destruct (f p).
  - rewrite decide_True by done. cbn [fmap list_fmap snd].
    f_equal. exact IH.
  - rewrite decide_False by done. exact IH.
Qed.

Lemma find_selection st (f : Project.t -> bool) :
  find st f
  ≡ₚ snd <$> map_to_list (filter (fun kp => f kp.2 = true) (projects st)).
Proof.
  unfold find. rewrite filter_values, map_filter_alt.
  apply fmap_Permutation. symmetry. apply map_to_list_to_map.
  apply (sublist_NoDup _ ((map_to_list (projects st)).*1));
    [apply NoDup_fst_map_to_list|].
  apply fmap_sublist, sublist_filter.
Qed.

Lemma find_count st (f : Project.t -> bool) :
  length (find st f)
  = size (filter (fun kp => f kp.2 = true) (projects st)).
Proof.
  by rewrite (Permutation_length (find_selection st f)), length_fmap,
    length_map_to_list.
Qed.

(** X2. [GET /api/projects/featured] answers 200 with exactly the stored
    Projects whose [featured] flag is set, each stored document once,
    [count] being the number of those documents in the collection, and
    changes nothing. *)
Theorem getFeaturedProjects_are_the_featured env st req :
  exists ps : list Project.t,
    run_chain get_featured env st req = (Responded (ok_list ps), st)
    /\ (forall p, p ∈ ps
                  <-> (exists k, projects st !! k = Some p)
                      /\ featured p = true)
    /\ ps ≡ₚ snd <$> map_to_list
                       (filter (fun kp => featured kp.2 = true) (projects st))
    /\ count (ok_list ps)
       = Some (size (filter (fun kp => featured kp.2 = true) (projects st))).
Proof.
  exists (find st is_featured). split; [reflexivity|]. split; [|split].
  - intros p. apply elem_of_find.
  - apply (find_selection st is_featured).
  - cbn [count ok_list]. f_equal. apply (find_count st is_featured).
Qed.

(** X3. [GET /api/projects/category/:category] answers 200 with exactly
    the stored Projects that list the category, compared as written (the
    case matters), each stored document once, [count] being the number of
    those documents in the collection, and changes nothing. *)
Theorem getProjectsByCategory_are_the_members env st req (category : string) :
  exists ps : list Project.t,
    run_chain (get_by_category category) env st req
    = (Responded (ok_list ps), st)
    /\ (forall p, p ∈ ps
                  <-> (exists k, projects st !! k = Some p)
                      /\ category ∈ categories p)
    /\ ps ≡ₚ snd <$> map_to_list
                       (filter (fun kp => category ∈ categories kp.2)
                               (projects st))
    /\ count (ok_list ps)
       = Some (size (filter (fun kp => category ∈ categories kp.2)
                            (projects st))).
Proof.
  assert (Hsame : filter (fun kp => in_category category kp.2 = true)
                         (projects st)
                  = filter (fun kp => category ∈ categories kp.2)
                           (projects st)).
  { apply map_filter_ext. intros k p _. unfold in_category. cbn [snd].
    apply bool_decide_eq_true. }
  exists (find st (in_category category)). split; [reflexivity|].
  split; [|split].
  - intros p. rewrite elem_of_find.
    unfold in_category. by rewrite bool_decide_eq_true.
  - rewrite <- Hsame. apply (find_selection st (in_category category)).
  - cbn [count ok_list]. f_equal. rewrite <- Hsame.
    apply (find_count st (in_category category)).
Qed.

(** X4. [GET /api/projects/:id] answers 200 with the stored Project when
    the id is known, 404 "Project not found with id of <id>" when it is
    not, 404 "Resource not found" when the id does not cast to an ObjectId;
    in no case does it change the store. *)
Theorem getProject_by_id env st req :
  (forall (k : ObjectId) (p : Project.t),
      param_id req = WellFormed k -> projects st !! k = Some p ->
      run_chain get_project env st req
      = (Responded (ProjectController.ok_project 200 p), st))
  /\ (forall k : ObjectId,
        param_id req = WellFormed k -> projects st !! k = None ->
        run_chain get_project env st req
        = (Responded (failure 404 ("Project not found with id of "
                                   +:+ ProjectController.oid_text k)), st))
  /\ (forall raw : string,
        param_id req = Malformed raw ->
        run_chain get_project env st req
        = (Responded (failure 404 "Resource not found"), st)).
Proof.
  unfold get_project, run_chain, getProject. repeat split.
  - intros k p -> Hp. simpl. by rewrite Hp.
  - intros k -> Hp. simpl. by rewrite Hp.
  - intros raw ->. reflexivity.
Qed.

End Queries.

(** ** The alphabet of a slug *)

Section SlugAlphabet.

Import SlugRule.



Lemma lower_unit_not_upper (c : ascii) :
  not_upper (JsString.lower_unit c) = true.
Proof. destruct c as [[] [] [] [] [] [] [] []]; vm_compute; reflexivity. Qed.

Lemma toLowerCase_not_upper (s : string) :
  JsString.every not_upper (JsString.toLowerCase s) = true.
Proof.
  induction s as [|c s IH]; [reflexivity|]. simpl.
  by rewrite lower_unit_not_upper, IH.
Qed.

Lemma keep_word_and_space_not_upper (s : string) :
  JsString.every not_upper s = true ->
  JsString.every not_upper (keep_word_and_space s) = true.
Proof.
  induction s as [|c s IH]; [reflexivity|]. simpl.
  intros [Hc Hs]%andb_true_iff.
  destruct (JsString.is_word c || JsString.is_space c); simpl; auto.
  by rewrite Hc, IH.
Qed.

Lemma hyphenate_runs_not_upper (s : string) :
  JsString.every not_upper s = true ->
  JsString.every not_upper (hyphenate_runs s) = true.
Proof.
  induction s as [|c s IH]; [reflexivity|].
  intros [Hc Hs]%andb_true_iff. specialize (IH Hs). simpl.
  destruct (JsString.is_space c).
  - destruct s as [|d s']; [reflexivity|].
    destruct (JsString.is_space d); [exact IH|]. simpl. exact IH.
  - simpl. by rewrite Hc, IH.
Qed.

Lemma every_and (p q : ascii -> bool) (s : string) :
  JsString.every p s = true -> JsString.every q s = true ->
  JsString.every (fun c => p c && q c) s = true.
Proof.
  induction s as [|c s IH]; [reflexivity|]. simpl.
  intros [Hp Hs]%andb_true_iff [Hq Hs']%andb_true_iff.
  by rewrite Hp, Hq, IH.
Qed.

Lemma every_impl (p q : ascii -> bool) (s : string) :
  (forall c, p c = true -> q c = true) ->
  JsString.every p s = true -> JsString.every q s = true.
Proof.
  intros Hpq. induction s as [|c s IH]; [reflexivity|]. simpl.
  intros [Hp Hs]%andb_true_iff. by rewrite (Hpq c Hp), IH.
Qed.

Lemma slug_unit_of_word_or_hyphen (c : ascii) :
  word_or_hyphen c && not_upper c = true -> slug_unit c = true.
Proof. destruct c as [[] [] [] [] [] [] [] []]; vm_compute; auto. Qed.

(** X5. Whatever the title, the slug computed by the [pre('save')] hook
    consists of lower-case letters, digits, underscores and hyphens only:
    it holds no space, no upper-case letter and no other punctuation. *)
Theorem slug_of_title_alphabet (title : string) :
  JsString.every slug_unit (ProjectModel.slug_of_title title) = true.
Proof.
  rewrite slug_of_title_derive.
  apply (every_impl (fun c => word_or_hyphen c && not_upper c));
    [exact slug_unit_of_word_or_hyphen|].
  apply every_and; [apply derive_url_safe|].
  apply hyphenate_runs_not_upper, keep_word_and_space_not_upper,
    toLowerCase_not_upper.
Qed.

End SlugAlphabet.

(** ** The error middleware on every error *)

Section ErrorEnvelope.

(** X6. Whatever error reaches it, the error middleware answers with
    [success: false], no data, a non-empty [error] string and a status
    that is never 0: 500 and "Server Error" stand in for a missing status
    or message. *)
Theorem errorHandler_envelope (err : JsError) :
  success (errorHandler err) = false
  /\ data (errorHandler err) = None
  /\ status (errorHandler err) ≠ 0
  /\ exists msg : string, error (errorHandler err) = Some msg /\ msg ≠ "".
Proof.
  unfold errorHandler. cbn [success data status error].
  repeat split.
  - unfold status_or_500.
    destruct (e_statusCode (errorHandler_error err)) as [c|]; [|done].
    destruct (Z.eqb_spec c 0); [done|done].
  - eexists. split; [reflexivity|]. unfold message_or_default.
    by destruct (e_message (errorHandler_error err)).
Qed.

End ErrorEnvelope.

(** ** Creating, updating and deleting Projects *)

Section ProjectMutations.

Import Project ProjectModel ProjectController.

Implicit Types (env : Env) (st : Store) (req : Request payload)
         (u : User.t).

Lemma slug_taken_false_inv (ps : gmap positive Project.t) (self : ObjectId)
      (s : string) :
  slug_taken ps self s = false ->
  forall k p, ps !! k = Some p -> k ≠ self -> slug p ≠ s.
Proof.
  intros Hfalse k p Hk Hne Hs.
  rewrite <- Hs, (slug_taken_true _ _ _ _ Hk Hne) in Hfalse. discriminate.
Qed.

Lemma createProject_Send env st req (res : Response) (st' : Store) :
  createProject env st req = Send res st' ->
  exists u doc,
    user req = Resolved (Some u)
    /\ create env st (set_createdBy (body req) (User.id u)) = inr (doc, st')
    /\ res = ok_project 201 doc.
Proof.
  unfold createProject. destruct (user req) as [|[u|]]; try discriminate.
  destruct (create _ _ _) as [err|[doc st1]] eqn:Hc; [discriminate|].
  intros [= <- <-]. by exists u, doc.
Qed.

Lemma create_valid env st (b : payload) (doc : Project.t) (st' : Store) :
  create env st b = inr (doc, st') ->
  validate_document (cast b) = []
  /\ doc = set_timestamps (pre_save (construct (fresh (dom (projects st)))
                                               (cast b)))
                          (now env) (now env)
  /\ slug_taken (projects st) (fresh (dom (projects st))) (slug doc) = false.
Proof.
  unfold create. destruct (validate_document (cast b)); [|discriminate].
  destruct (slug_taken _ _ _) eqn:Ht; [discriminate|].
  intros [= <- <-]. repeat split. exact Ht.
Qed.

Lemma validate_document_nil (b : payload) :
  validate_document b = [] ->
  exists (t c d s th : string),
    b_title b = Some t /\ check_title t = []
    /\ b_client b = Some c /\ c ≠ ""
    /\ b_description b = Some d /\ d ≠ ""
    /\ b_shortDescription b = Some s /\ check_shortDescription s = []
    /\ b_thumbnailImage b = Some th /\ th ≠ ""
    /\ check_categories (default [] (b_categories b)) = [].
Proof.
  unfold validate_document.
  destruct (b_createdBy b); [|discriminate].
  destruct (b_thumbnailImage b) as [th|]; [|discriminate].
  destruct (b_shortDescription b) as [s|]; [|discriminate].
  destruct (b_description b) as [d|]; [|discriminate].
  destruct (b_client b) as [c|]; [|discriminate].
  destruct (b_title b) as [t|]; [|discriminate].
  cbn [check_unset check_set from_option app].
  intros H. apply app_eq_nil in H as [H Hcat].
  apply app_eq_nil in H as [Ht H]. apply app_eq_nil in H as [Hc H].
  apply app_eq_nil in H as [Hd H]. apply app_eq_nil in H as [Hs Hth].
  exists t, c, d, s, th. unfold check_required in Hc, Hd, Hth.
  destruct c; [discriminate Hc|]. destruct d; [discriminate Hd|].
  destruct th; [discriminate Hth|]. repeat split; done.
Qed.

Lemma check_title_nil (v : string) :
  check_title v = [] -> v ≠ "" /\ (String.length v <= 100)%nat.
Proof.
  unfold check_title. destruct v as [|c v]; [discriminate|].
  cbn [JsString.is_empty].
  destruct (Z.ltb_spec 100 (Z.of_nat (String.length (String c v))));
    [discriminate|]. intros _. split; [done|lia].
Qed.

Lemma check_shortDescription_nil (v : string) :
  check_shortDescription v = [] -> v ≠ "" /\ (String.length v <= 200)%nat.
Proof.
  unfold check_shortDescription. destruct v as [|c v]; [discriminate|].
  cbn [JsString.is_empty].
  destruct (Z.ltb_spec 200 (Z.of_nat (String.length (String c v))));
    [discriminate|]. intros _. split; [done|lia].
Qed.

(** X7. When a stored Project already holds the slug that the title of
    the body gives, an admin's [POST /api/projects] with an otherwise
    valid body is answered 400 "Duplicate field value entered" and nothing
    is stored. *)
Theorem post_duplicate_slug_is_400 env st req u (k : ObjectId)
        (p : Project.t) :
  authenticated env st req u ->
  User.role u = "admin" ->
  validate_document (cast (set_createdBy (body req) (User.id u))) = [] ->
  projects st !! k = Some p ->
  slug p = slug_of_title (JsString.trim (default "" (b_title (body req)))) ->
  run_chain post_project env st req
  = (Responded (failure 400 "Duplicate field value entered"), st).
Proof.
  intros Hauth Hrole Hvalid Hk Hslug. unfold post_project.
  rewrite (gate_passes _ _ _ u) by (done || by rewrite only_admin).
  unfold run_chain, createProject, create.
  cbn [Auth.with_user user body]. rewrite Hvalid.
  set (oid := fresh (dom (projects st))).
  assert (Hne : k ≠ oid).
  { intros ->. subst oid. rewrite fresh_unused in Hk. discriminate. }
  assert (Hs : slug (set_timestamps
                       (pre_save (construct oid
                          (cast (set_createdBy (body req) (User.id u)))))
                       (now env) (now env)) = slug p).
  { rewrite Hslug. simpl. by destruct (b_title (body req)). }
  rewrite Hs, (slug_taken_true _ _ _ _ Hk Hne). reflexivity.
Qed.

(** X8. Every Project that [createProject] stores is owned by the acting
    user, whatever [createdBy] the body carried, and keeps the bounds of
    the schema: its title is trimmed, not empty and at most 100 units
    long, its short description not empty and at most 200 units long, its
    client, description and thumbnail not empty. *)
Theorem created_project_is_owned_and_bounded env st req (res : Response)
        (st' : Store) :
  createProject env st req = Send res st' ->
  exists (u : User.t) (p : Project.t),
    user req = Resolved (Some u)
    /\ res = ok_project 201 p
    /\ projects st' !! id p = Some p
    /\ createdBy p = User.id u
    /\ title p = JsString.trim (default "" (b_title (body req)))
    /\ title p ≠ "" /\ (String.length (title p) <= 100)%nat
    /\ shortDescription p ≠ ""
    /\ (String.length (shortDescription p) <= 200)%nat
    /\ client p ≠ "" /\ description p ≠ "" /\ thumbnailImage p ≠ "".
Proof.
  intros (u & doc & Hu & Hc & ->)%createProject_Send.
  pose proof (create_inr _ _ _ _ _ Hc) as (_ & -> & _ & _).
  apply create_valid in Hc as (Hvalid & -> & _).
  exists u. eexists. split; [exact Hu|]. split; [reflexivity|].
  split; [apply lookup_insert_eq|]. split; [reflexivity|].
  apply validate_document_nil in Hvalid
    as (t & c & d & s & th & Ht & Hct & Hc & Hcne & Hd & Hdne & Hs & Hcs
        & Hth & Hthne & _).
  apply check_title_nil in Hct as [Htne Htlen].
  apply check_shortDescription_nil in Hcs as [Hsne Hslen].
  cbn [cast set_createdBy b_title b_client b_description b_shortDescription
       b_thumbnailImage] in Ht, Hc, Hd, Hs, Hth.
  cbn [set_timestamps pre_save set_slug construct title shortDescription
       client description thumbnailImage cast set_createdBy b_title
       b_client b_description b_shortDescription b_thumbnailImage].
  rewrite Ht, Hc, Hd, Hs, Hth.
  destruct (b_title (body req)) as [t0|]; [|discriminate Ht].
  injection Ht as <-. repeat split; done.
Qed.

End ProjectMutations.

Section ProjectRoundTrips.

Import Project ProjectModel ProjectController.

Implicit Types (env : Env) (st : Store) (req : Request payload)
         (u : User.t).

(** X9. A Project that [createProject] has answered with can be read
    back: in the store it leaves, [getProject] with the id of the answer
    returns that very document, and every Project that was stored before is
    still there, unchanged, under its id. *)
Theorem create_then_get env st req (res : Response) (st' : Store) :
  createProject env st req = Send res st' ->
  exists p : Project.t,
    res = ok_project 201 p
    /\ (forall (B : Type) (env' : Env) (req' : Request B),
          param_id req' = WellFormed (id p) ->
          ProjectQueries.getProject env' st' req'
          = Send (ok_project 200 p) st')
    /\ (forall (k : ObjectId) (q : Project.t),
          projects st !! k = Some q -> projects st' !! k = Some q).
Proof.
  intros (u & doc & Hu & Hc & ->)%createProject_Send.
  apply create_inr in Hc as (Hnone & -> & _ & _).
  exists doc. split; [reflexivity|]. split.
  - intros B env' req' Hid. unfold ProjectQueries.getProject, findById.
    rewrite Hid. cbn [projects]. by rewrite lookup_insert_eq.
  - intros k q Hk. cbn [projects]. rewrite lookup_insert_ne; [done|].
    intros <-. rewrite Hnone in Hk. discriminate.
Qed.

(** X10. Once [deleteProject] has answered 200 for an id, [getProject]
    with that id fails with "Project not found", and the other Projects,
    the users and the contacts are as they were. The collection is assumed
    to store every document under its own [_id]. *)
Theorem delete_then_get env st req (res : Response) (st' : Store)
        (k : ObjectId) :
  keyed_by_id (projects st) ->
  param_id req = WellFormed k ->
  deleteProject env st req = Send res st' ->
  res = ok_empty
  /\ (forall (B : Type) (env' : Env) (req' : Request B),
        param_id req' = WellFormed k ->
        ProjectQueries.getProject env' st' req'
        = Fail (not_found (WellFormed k)) st')
  /\ (forall k' : ObjectId, k' ≠ k -> projects st' !! k' = projects st !! k')
  /\ users st' = users st /\ contacts st' = contacts st.
Proof.
  intros Hkeyed Hid. unfold deleteProject, findById. rewrite Hid.
  destruct (projects st !! k) as [p|] eqn:Hp; [|discriminate].
  destruct (user req) as [|[u|]]; try discriminate.
  destruct (refused p u); [discriminate|].
  intros [= <- <-]. rewrite (Hkeyed k p Hp).
  split; [reflexivity|]. split; [|split; [|done]].
  - intros B env' req' Hid'. unfold ProjectQueries.getProject, findById.
    rewrite Hid'. cbn [remove projects]. by rewrite lookup_delete_eq.
  - intros k' Hne. cbn [remove projects]. by rewrite lookup_delete_ne.
Qed.

Lemma updateProject_Send env st req (res : Response) (st' : Store)
      (k : ObjectId) (p : Project.t) :
  param_id req = WellFormed k ->
  projects st !! k = Some p ->
  updateProject env st req = Send res st' ->
  let p' := set_timestamps (apply_set p (cast (body req))) (createdAt p)
                           (now env) in
  res = ok_project 200 p'
  /\ st' = MkStore (users st) (<[k := p']> (projects st)) (contacts st)
                   (outbox st) (uploads st)
  /\ validate_update (cast (body req)) = []
  /\ slug_taken (projects st) k (slug p') = false.
Proof.
  intros Hid Hp. unfold updateProject, findById, findByIdAndUpdate.
  rewrite Hid, Hp.
  destruct (user req) as [|[u|]]; try discriminate.
  destruct (refused p u); [discriminate|].
  destruct (validate_update (cast (body req))); [|discriminate].
  destruct (slug_taken _ _ _) eqn:Ht; [discriminate|].
  intros [= <- <-]. repeat split.
Qed.

(** X11. A successful [updateProject] writes what the body carries and
    nothing else. The document keeps its [_id] and [createdAt] and gets
    [updatedAt] from the clock; every other path of the schema, [slug] and
    [createdBy] included, takes the value of the body when the body has the
    path ([title] and [client] trimmed) and keeps its value otherwise. No
    other Project changes, nor do the users, the contacts, the mails or the
    uploaded files. *)
Theorem update_writes_the_body_only env st req (res : Response)
        (st' : Store) (k : ObjectId) (p : Project.t) :
  param_id req = WellFormed k ->
  projects st !! k = Some p ->
  updateProject env st req = Send res st' ->
  exists p' : Project.t,
    res = ok_project 200 p'
    /\ projects st' !! k = Some p'
    /\ id p' = id p /\ createdAt p' = createdAt p /\ updatedAt p' = now env
    /\ title p' = default (title p) (JsString.trim <$> b_title (body req))
    /\ slug p' = default (slug p) (b_slug (body req))
    /\ client p' = default (client p) (JsString.trim <$> b_client (body req))
    /\ description p' = default (description p) (b_description (body req))
    /\ shortDescription p'
       = default (shortDescription p) (b_shortDescription (body req))
    /\ categories p' = default (categories p) (b_categories (body req))
    /\ technologies p'
       = default (technologies p) (b_technologies (body req))
    /\ features p' = default (features p) (b_features (body req))
    /\ thumbnailImage p'
       = default (thumbnailImage p) (b_thumbnailImage (body req))
    /\ galleryImages p'
       = default (galleryImages p) (b_galleryImages (body req))
    /\ projectUrl p'
       = from_option Some (projectUrl p) (b_projectUrl (body req))
    /\ testimonial_ p'
       = from_option Some (testimonial_ p) (b_testimonial (body req))
    /\ featured p' = default (featured p) (b_featured (body req))
    /\ completionDate p'
       = from_option Some (completionDate p) (b_completionDate (body req))
    /\ createdBy p' = default (createdBy p) (b_createdBy (body req))
    /\ (forall k' : ObjectId, k' ≠ k ->
          projects st' !! k' = projects st !! k')
    /\ users st' = users st /\ contacts st' = contacts st
    /\ outbox st' = outbox st /\ uploads st' = uploads st.
Proof.
  intros Hid Hp Hrun.
  destruct (updateProject_Send _ _ _ _ _ _ _ Hid Hp Hrun)
    as (-> & -> & _ & _).
  eexists. split; [reflexivity|].
  cbn [projects users contacts outbox uploads].
  split; [apply lookup_insert_eq|].
  cbn [set_timestamps apply_set cast id title slug client description
       shortDescription categories technologies features thumbnailImage
       galleryImages projectUrl testimonial_ featured completionDate
       createdBy createdAt updatedAt b_title b_slug b_client b_description
       b_shortDescription b_categories b_technologies b_features
       b_thumbnailImage b_galleryImages b_projectUrl b_testimonial
       b_featured b_completionDate b_createdBy].
  repeat split;
    try (by destruct (b_projectUrl (body req)));
    try (by destruct (b_testimonial (body req)));
    try (by destruct (b_completionDate (body req))).
  intros k' Hne. by rewrite lookup_insert_ne.
Qed.

End ProjectRoundTrips.

Section ProjectInvariants.

Import Project ProjectModel ProjectController.

Implicit Types (env : Env) (st : Store) (req : Request payload).

Lemma insert_keeps_index (ps : gmap positive Project.t) (k : ObjectId)
      (doc : Project.t) :
  slugs_unique ps -> keyed_by_id ps ->
  id doc = k ->
  slug_taken ps k (slug doc) = false ->
  slugs_unique (<[k := doc]> ps) /\ keyed_by_id (<[k := doc]> ps).
Proof.
  intros Huniq Hkeyed Hid Hfree.
  pose proof (slug_taken_false_inv _ _ _ Hfree) as Hother. split.
  - intros k1 k2 p1 p2 H1 H2 Hs.
    apply lookup_insert_Some in H1 as [[<- <-]|[Hne1 H1]];
      apply lookup_insert_Some in H2 as [[<- <-]|[Hne2 H2]].
    + reflexivity.
    + exfalso. apply (Hother k2 p2 H2); [congruence|by symmetry].
    + exfalso. by apply (Hother k1 p1 H1); [congruence|].
    + by apply (Huniq k1 k2 p1 p2).
  - intros k' p' H'.
    apply lookup_insert_Some in H' as [[<- <-]|[_ H']]; [done|].
    by apply Hkeyed.
Qed.

(** X12. The three mutating controllers keep the unique index on [slug]
    and the keying by [_id]: if no two stored Projects share a slug and
    each is stored under its own id, the same holds of the store that
    [createProject], [updateProject] or [deleteProject] leaves, whatever
    the request and whatever the outcome. *)
Theorem mutations_keep_the_slug_index env st req (h : Handler payload) :
  h ∈ [createProject; updateProject; deleteProject] ->
  slugs_unique (projects st) -> keyed_by_id (projects st) ->
  slugs_unique (projects (step_store (h env st req)))
  /\ keyed_by_id (projects (step_store (h env st req))).
Proof.
  intros Hh Huniq Hkeyed.
  repeat (apply elem_of_cons in Hh as [->|Hh]);
    [| | |by apply elem_of_nil in Hh].
  - destruct (createProject env st req) as [r s|res st'|err s|s] eqn:Hrun;
      unfold createProject in Hrun;
      destruct (user req) as [|[u|]]; try discriminate;
      try (injection Hrun as <- <-; by split);
      destruct (create _ _ _) as [err'|[doc st1]] eqn:Hc;
      try discriminate; try (injection Hrun as <- <-; by split).
    injection Hrun as <- <-.
    pose proof (create_valid _ _ _ _ _ Hc) as (_ & Hdoc & Hfree).
    apply create_inr in Hc as (_ & -> & _ & _). cbn [step_store projects].
    assert (Hid : id doc = fresh (dom (projects st))) by (by rewrite Hdoc).
    rewrite Hid. by apply insert_keeps_index.
  - destruct (param_id req) as [k|raw|] eqn:Hid;
      [|by unfold updateProject; rewrite Hid|by unfold updateProject; rewrite Hid].
    destruct (projects st !! k) as [p|] eqn:Hp;
      [|by unfold updateProject, findById; rewrite Hid, Hp].
    destruct (updateProject env st req) as [r s|res st'|err s|s] eqn:Hrun.
    + exfalso. revert Hrun. unfold updateProject, findById, findByIdAndUpdate.
      rewrite Hid, Hp. destruct (user req) as [|[u|]]; try discriminate.
      destruct (refused p u); [discriminate|].
      destruct (validate_update _); [|discriminate].
      destruct (slug_taken _ _ _); discriminate.
    + destruct (updateProject_Send _ _ _ _ _ _ _ Hid Hp Hrun)
        as (_ & -> & _ & Hfree).
      cbn [step_store projects]. apply insert_keeps_index; try done.
      cbn. by apply Hkeyed.
    + assert (s = st) as ->; [|by split].
      revert Hrun. unfold updateProject, findById, findByIdAndUpdate.
      rewrite Hid, Hp. destruct (user req) as [|[u|]];
        try (by intros [= _ <-]).
      destruct (refused p u); [by intros [= _ <-]|].
      destruct (validate_update _); [|by intros [= _ <-]].
      destruct (slug_taken _ _ _); [by intros [= _ <-]|discriminate].
    + exfalso. revert Hrun. unfold updateProject, findById, findByIdAndUpdate.
      rewrite Hid, Hp. destruct (user req) as [|[u|]]; try discriminate.
      destruct (refused p u); [discriminate|].
      destruct (validate_update _); [|discriminate].
      destruct (slug_taken _ _ _); discriminate.
  - assert (Hsub : forall k p,
               projects (step_store (deleteProject env st req)) !! k = Some p
               -> projects st !! k = Some p).
    { unfold deleteProject. destruct (findById st (param_id req)) as [|[p|]];
        try done.
      destruct (user req) as [|[u|]]; try done.
      destruct (refused p u); [done|]. cbn [step_store remove projects].
      intros k q Hq. by apply lookup_delete_Some in Hq as [_ Hq]. }
    split.
    + intros k1 k2 p1 p2 H1%Hsub H2%Hsub. by apply Huniq.
    + intros k p Hk%Hsub. by apply Hkeyed.
Qed.

End ProjectInvariants.

(** ** Refused bodies, the gate, uploads *)

Section RefusedBodies.

Import Project ProjectModel ProjectController.

Lemma long_title_message (b : payload) (t : string) :
  b_title b = Some t ->
  (100 < String.length (JsString.trim t))%nat ->
  "Title cannot be more than 100 characters" ∈ validate_document (cast b).
Proof.
  intros Ht Hlen. unfold validate_document, cast. cbn [b_title].
  rewrite Ht. apply elem_of_app. right. apply elem_of_app. left.
  apply elem_of_app. left.
  cbn [fmap option_fmap option_map check_set from_option].
  unfold check_title.
  destruct (JsString.trim t) as [|c s] eqn:Htrim; [simpl in Hlen; lia|].
  cbn [JsString.is_empty].
  destruct (Z.ltb_spec 100 (Z.of_nat (String.length (String c s))));
    [apply list_elem_of_here|lia].
Qed.

Lemma message_occurs_in_join (m : string) (msgs : list string) :
  m ∈ msgs -> occurs_in m (JsString.join_comma msgs).
Proof.
  induction msgs as [|x [|y rest] IH].
  - intros H. by apply elem_of_nil in H.
  - intros ->%list_elem_of_singleton. exists "", "". cbn [JsString.join_comma].
    by rewrite append_nil_l, append_nil_r.
  - intros [->|Hin]%elem_of_cons.
    + exists "", ("," +:+ JsString.join_comma (y :: rest)).
      by rewrite append_nil_l.
    + destruct (IH Hin) as (pre & post & Hj).
      exists (x +:+ "," +:+ pre), post.
      change (JsString.join_comma (x :: y :: rest))
        with (x +:+ "," +:+ JsString.join_comma (y :: rest)).
      by rewrite Hj, !append_assoc.
Qed.

Lemma join_not_empty (m : string) (ms : list string) :
  m ≠ "" -> JsString.join_comma (m :: ms) ≠ "".
Proof.
  intros Hm. destruct ms as [|y rest]; [exact Hm|].
  change (JsString.join_comma (m :: y :: rest))
    with (m +:+ "," +:+ JsString.join_comma (y :: rest)).
  intros [H _]%append_eq_nil. by apply Hm.
Qed.

Lemma check_elements_not_empty (v : list string) (i : nat) (m : string) :
  m ∈ check_elements i v -> m ≠ "".
Proof.
  revert i. induction v as [|c v IH]; intros i; cbn [check_elements].
  - intros H. by apply elem_of_nil in H.
  - intros [H|H]%elem_of_app; [|by apply (IH (S i))].
    destruct (bool_decide (c ∈ category_enum)); [by apply elem_of_nil in H|].
    apply list_elem_of_singleton in H as ->. unfold enum_message.
    rewrite append_cons. discriminate.
Qed.

Lemma validate_document_not_empty (b : payload) (m : string) :
  m ∈ validate_document b -> m ≠ "".
Proof.
  unfold validate_document, check_unset, check_set, check_title,
    check_shortDescription, check_required, check_categories.
  rewrite !elem_of_app.
  intros [[H|[H|[H|[H|[H|H]]]]]|[[H|[H|[H|[H|H]]]]|H]];
    try (by apply (check_elements_not_empty _ _ _ H));
    repeat match type of H with
           | _ ∈ from_option _ _ ?o => destruct o; cbn [from_option] in H
           | _ ∈ match ?o with Some _ => _ | None => _ end => destruct o
           | _ ∈ (if ?c then _ else _) => destruct c
           | _ ∈ [] => by apply elem_of_nil in H
           | _ ∈ [_] => apply list_elem_of_singleton in H as ->
           end;
    discriminate.
Qed.

(** X13. An admin's [POST /api/projects] whose body fails the document
    validation is answered 400 with [success: false] and nothing is
    stored. The error text holds the message of every validator that
    failed, and when a single validator failed it is that message. A title
    of more than 100 units after trimming is such a failure, with the
    message of the schema. *)
Theorem post_invalid_body_is_400 (env : Env) (st : Store)
        (req : Request payload) (u : User.t) :
  authenticated env st req u ->
  User.role u = "admin" ->
  validate_document (cast (set_createdBy (body req) (User.id u))) ≠ [] ->
  exists text : string,
    run_chain post_project env st req = (Responded (failure 400 text), st)
    /\ (forall m : string,
          m ∈ validate_document (cast (set_createdBy (body req) (User.id u)))
          -> occurs_in m text)
    /\ (forall m : string,
          validate_document (cast (set_createdBy (body req) (User.id u)))
          = [m] -> text = m)
    /\ (forall t : string,
          b_title (body req) = Some t ->
          (100 < String.length (JsString.trim t))%nat ->
          "Title cannot be more than 100 characters"
          ∈ validate_document
              (cast (set_createdBy (body req) (User.id u)))).
Proof.
  intros Hauth Hrole Hinvalid.
  exists (JsString.join_comma
            (validate_document
               (cast (set_createdBy (body req) (User.id u))))).
  split; [|split; [|split]].
  - unfold post_project.
    rewrite (gate_passes _ _ _ u) by (done || by rewrite only_admin).
    unfold run_chain, createProject, create. cbn [Auth.with_user user body].
    destruct (validate_document _) as [|m ms] eqn:Hv; [done|].
    assert (Hne : JsString.join_comma (m :: ms) ≠ "").
    { apply join_not_empty.
      apply (validate_document_not_empty
               (cast (set_createdBy (body req) (User.id u)))).
      rewrite Hv. apply list_elem_of_here. }
    transitivity
      (Responded
         (failure 400
            (message_or_default (JsString.join_comma (m :: ms)))), st);
      [reflexivity|].
    unfold message_or_default.
    by destruct (JsString.join_comma (m :: ms)).
  - intros m Hm. by apply message_occurs_in_join.
  - by intros m ->.
  - intros t Ht Hlen. by apply (long_title_message _ t).
Qed.

End RefusedBodies.

Section GateSoundness.

Context {B : Type}.
Implicit Types (env : Env) (st : Store) (req : Request B).

(** X14. The header comes before the cookie in [protect]. A request whose
    [Authorization] header starts with "Bearer" but carries no token after
    the first space is refused with 401 whatever its cookie holds; a
    request whose header is absent or does not start with "Bearer" is
    authenticated by a non-empty cookie token that verifies. *)
Theorem protect_header_before_cookie env st req :
  (forall a : string,
      authorization req = Some a ->
      JsString.startsWith a "Bearer" = true ->
      JsString.split_space a !! 1%nat = None
      \/ JsString.split_space a !! 1%nat = Some "" ->
      Auth.protect env st req = Fail Auth.not_authorized st)
  /\ (forall (tok : string) (uid : ObjectId),
        match authorization req with
        | Some a => JsString.startsWith a "Bearer" = false
        | None => True
        end ->
        cookie_token req = Some tok -> tok ≠ "" ->
        jwt_verify env tok = Some uid ->
        Auth.protect env st req
        = Next (Auth.with_user req (Resolved (users st !! uid))) st).
Proof.
  split.
  - intros a Ha Hbearer Hnone. unfold Auth.protect, Auth.extract_token.
    rewrite Ha, Hbearer.
    assert (Auth.truthy (Some a) = true) as ->.
    { destruct a; [discriminate Hbearer|reflexivity]. }
    simpl. by destruct Hnone as [-> | ->].
  - intros tok uid Hhead Hcookie Htok Hverify.
    assert (Htruthy : Auth.truthy (Some tok) = true)
      by (by destruct tok).
    assert (Hext : Auth.extract_token req = Some tok).
    { unfold Auth.extract_token.
      destruct (authorization req) as [a|].
      - rewrite Hhead, andb_false_r, Hcookie, Htruthy. reflexivity.
      - by rewrite Hcookie, Htruthy. }
    unfold Auth.protect. by rewrite Hext, Htruthy, Hverify.
Qed.

(** X15. Nobody passes [protect, authorize(...roles)] without a token
    that verifies to a stored user whose role is listed; every other
    request is answered with [success: false] and status 401, 403 or 500;
    in no case does the gate change the store. *)
Theorem gate_is_sound env st req (roles : list string) (o : Outcome)
        (st' : Store) :
  run_chain [Auth.protect; Auth.authorize roles] env st req = (o, st') ->
  st' = st
  /\ (o = Unanswered ->
      exists (tok : string) (uid : ObjectId) (u : User.t),
        Auth.extract_token req = Some tok /\ tok ≠ ""
        /\ jwt_verify env tok = Some uid
        /\ users st !! uid = Some u
        /\ User.role u ∈ roles)
  /\ (forall res : Response,
        o = Responded res ->
        success res = false
        /\ (status res = 401 \/ status res = 403 \/ status res = 500)).
Proof.
  unfold run_chain, Auth.protect.
  destruct (Auth.extract_token req) as [tok|] eqn:Htok; cbn [Auth.truthy].
  2: { intros [= <- <-]. split; [done|]. split; [done|].
       intros res [= <-]. split; [reflexivity|by left]. }
  destruct (JsString.is_empty tok) eqn:Hempty; cbn [negb].
  { intros [= <- <-]. split; [done|]. split; [done|].
    intros res [= <-]. split; [reflexivity|by left]. }
  destruct (jwt_verify env tok) as [uid|] eqn:Hverify.
  2: { intros [= <- <-]. split; [done|]. split; [done|].
       intros res [= <-]. split; [reflexivity|by left]. }
  unfold Auth.authorize. cbn [Auth.with_user user].
  destruct (users st !! uid) as [u|] eqn:Hu.
  - destruct (bool_decide (User.role u ∈ roles)) eqn:Hrole; cbn [negb].
    + intros [= <- <-]. split; [done|]. split; [|done].
      intros _. exists tok, uid, u. repeat split; try done.
      * intros ->. discriminate Hempty.
      * by apply bool_decide_eq_true in Hrole.
    + intros [= <- <-]. split; [done|]. split; [done|].
      intros res [= <-]. split; [reflexivity|]. right. by left.
  - intros [= <- <-]. split; [done|]. split; [done|].
    intros res [= <-]. split; [reflexivity|]. right. by right.
Qed.

End GateSoundness.

Section UploadAnswers.

Context {B : Type}.


End UploadAnswers.

(** ** Contact submissions *)

Section ContactExtras.

Import ContactModel ContactController.

Implicit Types (env : Env) (st : Store) (req : Request payload)
         (b : payload).

Lemma absent_is_required (msg : string) (v : option string) :
  present v = false ->
  check_required msg (JsString.trim (default "" v)) = [msg].
Proof.
  destruct v as [s|]; simpl; unfold check_required.
  - by intros ->%negb_false_iff.
  - reflexivity.
Qed.

Lemma validate_not_well_formed (oid : ObjectId) b (d t : Z) :
  well_formed b = false -> validate (construct oid b "new" d t) ≠ [].
Proof.
  unfold well_formed, validate, construct.
  cbn [Contact.firstName Contact.lastName Contact.email Contact.message
       Contact.status].
  intros Hwf Hnil.
  apply app_eq_nil in Hnil as [Hf Hnil].
  apply app_eq_nil in Hnil as [Hl Hnil].
  apply app_eq_nil in Hnil as [He Hnil].
  apply app_eq_nil in Hnil as [Hm _].
  destruct (present (b_firstName b)) eqn:Hpf;
    [|by rewrite absent_is_required in Hf].
  destruct (present (b_lastName b)) eqn:Hpl;
    [|by rewrite absent_is_required in Hl].
  destruct (present (b_message b)) eqn:Hpm;
    [|by rewrite absent_is_required in Hm].
  simpl in Hwf. destruct (b_email b) as [e|].
  - change (default "" (Some e)) with e in He.
    by apply (check_email_mismatch _ Hwf).
  - discriminate He.
Qed.

Lemma save_ill_formed env st b :
  well_formed b = false ->
  exists msgs : list string,
    save st (newContact env st b) = inl (ValidationError "Contact" msgs).
Proof.
  intros Hwf. unfold save.
  pose proof (validate_not_well_formed (fresh (dom (contacts st))) b
                (now env) (now env) Hwf) as Hv.
  unfold newContact. destruct (validate _) as [|m ms]; [done|].
  by exists (m :: ms).
Qed.

Lemma submitContact_save_error env st req (err : JsError) :
  save st (newContact env st (body req)) = inl err ->
  submitContact env st req = Send problem st.
Proof. intros Hsave. unfold submitContact. by rewrite Hsave. Qed.

(** X17. [submitContact] stores nothing and sends no mail unless the body
    is well formed: when a required field is absent or blank, or the email
    fails the pattern, the answer is the generic 500 and the store is
    unchanged. *)
Theorem ill_formed_contact_is_dropped env st req :
  well_formed (body req) = false ->
  submitContact env st req = Send problem st.
Proof.
  intros Hwf.
  destruct (save_ill_formed env st (body req) Hwf) as [msgs Hsave].
  by apply (submitContact_save_error _ _ _ _ Hsave).
Qed.

Lemma not_blank (v : option string) :
  present v = true -> JsString.trim (default "" v) ≠ "".
Proof.
  destruct v as [s|]; [|discriminate]. simpl.
  intros Hp%negb_true_iff Heq. by rewrite Heq in Hp.
Qed.

Lemma well_formed_of_validate (oid : ObjectId) b (d t : Z) :
  validate (construct oid b "new" d t) = [] -> well_formed b = true.
Proof.
  intros Hv. destruct (well_formed b) eqn:Hwf; [done|].
  by apply (validate_not_well_formed oid b d t) in Hwf.
Qed.

Lemma submitContact_store env st req :
  well_formed (body req) = true ->
  contacts (step_store (submitContact env st req))
  = <[Contact.id (newContact env st (body req))
      := newContact env st (body req)]> (contacts st).
Proof.
  intros Hwf. unfold submitContact, save. unfold newContact at 1.
  rewrite (validate_well_formed _ _ _ _ Hwf). unfold sendEmail.
  cbn [outbox users projects contacts uploads].
  destruct (smtp_accepts env (admin_mail (body req)));
    [destruct (smtp_accepts env (user_mail (body req)))|]; reflexivity.
Qed.

(** X18. [submitContact] keeps the collection clean: if every stored
    Contact has a non-empty first name, last name and message, an email
    that matches the pattern and the status "new", so has every Contact of
    the store it leaves, whatever the body and whatever the mail transport
    does; the Contacts stored before are still there. *)
Theorem submitContact_keeps_contacts_clean env st req :
  (forall k c, contacts st !! k = Some c -> contact_as_submitted c) ->
  (forall k c,
      contacts (step_store (submitContact env st req)) !! k = Some c ->
      contact_as_submitted c)
  /\ (forall k c,
        contacts st !! k = Some c ->
        contacts (step_store (submitContact env st req)) !! k = Some c).
Proof.
  intros Hclean.
  destruct (well_formed (body req)) eqn:Hwf.
  2: { destruct (save_ill_formed env st (body req) Hwf) as [msgs Hsave].
       rewrite (submitContact_save_error _ _ _ _ Hsave). by split. }
  rewrite (submitContact_store _ _ _ Hwf). split.
  - intros k c [[<- <-]|[_ Hk]]%lookup_insert_Some; [|by apply (Hclean k)].
    revert Hwf. unfold well_formed.
    intros [[[Hf Hl]%andb_true_iff Hm]%andb_true_iff He]%andb_true_iff.
    unfold contact_as_submitted, newContact, construct.
    cbn [Contact.firstName Contact.lastName Contact.email Contact.message
         Contact.status].
    destruct (b_email (body req)) as [e|]; [|discriminate].
    repeat split; try (by apply not_blank). exact He.
  - intros k c Hk. rewrite lookup_insert_ne; [done|].
    intros Heq. unfold newContact, construct in Heq. cbn in Heq.
    rewrite <- Heq, fresh_unused in Hk. discriminate.
Qed.

End ContactExtras.

Section EmailShape.

Import Regex ContactModel EmailParts.

Lemma every_app (P : ascii -> bool) (s1 s2 : string) :
  JsString.every P (s1 +:+ s2)
  = JsString.every P s1 && JsString.every P s2.
Proof.
  induction s1 as [|c s1 IH]; [reflexivity|].
  rewrite append_cons. cbn [JsString.every]. by rewrite IH, andb_assoc.
Qed.

Lemma denotes_classes_within (P : ascii -> bool) (r : regex) (s : string) :
  denotes r s -> classes_within P r -> JsString.every P s = true.
Proof.
  induction 1 as [|p c Hp|r1 r2 s1 s2 H1 IH1 H2 IH2|r1 r2 s H IH
                  |r1 r2 s H IH|r|r s1 s2 H1 IH1 H2 IH2]; cbn [classes_within].
  - done.
  - intros Hc. simpl. by rewrite (Hc c Hp).
  - intros [Hr1 Hr2]. by rewrite every_app, IH1, IH2.
  - intros [Hr1 _]. auto.
  - intros [_ Hr2]. auto.
  - done.
  - intros Hr. by rewrite every_app, IH1, IH2.
Qed.

Lemma email_pattern_parts :
  email_pattern = Cat words_part (Cat at_class domain_part).
Proof. reflexivity. Qed.

Lemma address_unit_word (c : ascii) :
  JsString.is_word c = true -> address_unit c = true.
Proof. unfold address_unit. by intros ->. Qed.

Lemma address_unit_sep (c : ascii) :
  (JsString.code c =? 46) || (JsString.code c =? 45) = true ->
  address_unit c = true.
Proof.
  unfold address_unit. intros [->| ->]%orb_true_iff;
    by rewrite ?orb_true_r.
Qed.

Lemma address_unit_dot (c : ascii) :
  (JsString.code c =? 46) = true -> address_unit c = true.
Proof. unfold address_unit. intros ->. by rewrite orb_true_r. Qed.

Lemma words_part_within : classes_within address_unit words_part.
Proof.
  cbn. repeat split; auto using address_unit_word, address_unit_sep.
Qed.

Lemma domain_part_within : classes_within address_unit domain_part.
Proof.
  cbn. repeat split;
    auto using address_unit_word, address_unit_sep, address_unit_dot.
Qed.

Lemma at_class_denotes (s : string) : denotes at_class s -> s = "@".
Proof.
  intros H. inversion H as [|p c Hc| | | | |]; subst.
  destruct c as [[] [] [] [] [] [] [] []]; try discriminate Hc. reflexivity.
Qed.

(** X19. A string that the email pattern of the Contact schema accepts
    has exactly one [@]: it is a non-empty local part, the [@] and a
    non-empty domain, and both parts consist of word characters, dots and
    hyphens only, so it holds no space and no second [@]. *)
Theorem email_pattern_shape (s : string) :
  Regex.test_anchored email_pattern s = true ->
  exists (local domain : string),
    s = local +:+ "@" +:+ domain
    /\ local ≠ "" /\ domain ≠ ""
    /\ JsString.every address_unit local = true
    /\ JsString.every address_unit domain = true
    /\ address_unit "@" = false.
Proof.
  unfold test_anchored. rewrite matches_denotes, email_pattern_parts.
  intros H. inversion H as [| |r1 r2 local rest Hlocal Hrest| | | |]; subst.
  inversion Hrest as [| |r1 r2 a domain Ha Hdomain| | | |]; subst.
  apply at_class_denotes in Ha as ->.
  exists local, domain. split; [reflexivity|]. repeat split.
  - intros ->. by apply nullable_denotes in Hlocal.
  - intros ->. by apply nullable_denotes in Hdomain.
  - exact (denotes_classes_within _ _ _ Hlocal words_part_within).
  - exact (denotes_classes_within _ _ _ Hdomain domain_part_within).
Qed.

End EmailShape.

Section StoredEmail.

Import ContactModel ContactController EmailParts.

Lemma email_unit_of_address (c : ascii) :
  (address_unit c || (JsString.code c =? 64)) && not_upper c = true ->
  email_unit c = true.
Proof. destruct c as [[] [] [] [] [] [] [] []]; vm_compute; auto. Qed.

Lemma email_pattern_within :
  classes_within (fun c => address_unit c || (JsString.code c =? 64))
                 email_pattern.
Proof.
  rewrite email_pattern_parts. cbn.
  repeat split; intros c Hc;
    rewrite ?(address_unit_word c), ?(address_unit_sep c),
      ?(address_unit_dot c) by exact Hc;
    try reflexivity.
  rewrite Hc. apply orb_true_r.
Qed.

(** X20. The email of a Contact that [submitContact] adds to the
    collection is the email of the body trimmed and lower-cased, and it
    consists of lower-case letters, digits, [_], [.], [-] and [@] only. *)
Theorem stored_email_is_normalised (env : Env) (st : Store)
        (req : Request payload) (k : ObjectId) (c : Contact.t) :
  contacts st !! k = None ->
  contacts (step_store (submitContact env st req)) !! k = Some c ->
  (exists e : string,
      b_email (body req) = Some e
      /\ Contact.email c = JsString.toLowerCase (JsString.trim e))
  /\ JsString.every email_unit (Contact.email c) = true.
Proof.
  intros Hnone Hsome.
  destruct (well_formed (body req)) eqn:Hwf.
  2: { destruct (save_ill_formed env st (body req) Hwf) as [msgs Hsave].
       rewrite (submitContact_save_error _ _ _ _ Hsave) in Hsome.
       cbn [step_store] in Hsome. congruence. }
  rewrite (submitContact_store _ _ _ Hwf) in Hsome.
  apply lookup_insert_Some in Hsome as [[_ <-]|[_ Hk]]; [|congruence].
  revert Hwf. unfold well_formed. intros [_ He]%andb_true_iff.
  unfold newContact, construct. cbn [Contact.email].
  destruct (b_email (body req)) as [e|]; [|discriminate].
  change (default "" (Some e)) with e. split; [by exists e|].
  apply (every_impl
           (fun c => (address_unit c || (JsString.code c =? 64))
                     && not_upper c));
    [exact email_unit_of_address|].
  apply every_and; [|apply toLowerCase_not_upper].
  apply (denotes_classes_within _ email_pattern);
    [by apply matches_denotes|exact email_pattern_within].
Qed.

End StoredEmail.

(** ** The pages' scripts *)

Section SliderProps.

Import Slider.

Local Open Scope Z_scope.

Lemma next_value (n cur : Z) :
  0 < n -> 0 <= cur < n ->
  on_click n cur NextClick = if cur + 1 =? n then 0 else cur + 1.
Proof.
  intros Hn Hcur. unfold on_click.
  destruct (Z.eqb_spec (cur + 1) n) as [->|Hne].
  - apply Z.rem_same. lia.
  - rewrite Z.rem_small; lia.
Qed.

Lemma back_value (n cur : Z) :
  0 < n -> 0 <= cur < n ->
  on_click n cur BackClick = if cur =? 0 then n - 1 else cur - 1.
Proof.
  intros Hn Hcur. unfold on_click.
  destruct (Z.eqb_spec cur 0) as [->|Hne].
  - rewrite Z.rem_small; lia.
  - rewrite Z.rem_mod_nonneg by lia.
    replace (cur - 1 + n) with (cur - 1 + 1 * n) by lia.
    rewrite Z.mod_add by lia. apply Z.mod_small. lia.
Qed.

Lemma on_click_in_range (n cur : Z) (c : click) :
  0 < n -> 0 <= cur < n -> dot_in_range n c ->
  0 <= on_click n cur c < n.
Proof.
  intros Hn Hcur Hdot. destruct c as [| |i].
  - rewrite next_value by done. destruct (Z.eqb_spec (cur + 1) n); lia.
  - rewrite back_value by done. destruct (Z.eqb_spec cur 0); lia.
  - simpl in *. lia.
Qed.

(** X21. With at least one slide, [current] always indexes a slide: from
    an index in range, any sequence of next, back and dot clicks (each dot
    being one of the first [slides.length] dots) leaves it in range. *)
Theorem slider_index_stays_in_range (n cur : Z) (cs : list click) :
  0 < n -> 0 <= cur < n ->
  Forall (dot_in_range n) cs ->
  0 <= clicks n cur cs < n.
Proof.
  intros Hn Hcur Hcs. revert cur Hcur.
  induction Hcs as [|c cs Hc _ IH]; intros cur Hcur; [done|].
  simpl. apply IH. by apply on_click_in_range.
Qed.

(** X22. The next and back buttons of the slider undo each other and
    wrap around: back after next, and next after back, return to the same
    slide; next on the last slide shows the first, back on the first shows
    the last. *)
Theorem slider_next_and_back (n cur : Z) :
  0 < n -> 0 <= cur < n ->
  on_click n (on_click n cur NextClick) BackClick = cur
  /\ on_click n (on_click n cur BackClick) NextClick = cur
  /\ on_click n (n - 1) NextClick = 0
  /\ on_click n 0 BackClick = n - 1.
Proof.
  intros Hn Hcur. repeat split.
  - rewrite (next_value n cur) by done.
    destruct (Z.eqb_spec (cur + 1) n).
    + rewrite back_value by lia. simpl. lia.
    + rewrite back_value by lia. destruct (Z.eqb_spec (cur + 1) 0); lia.
  - rewrite (back_value n cur) by done.
    destruct (Z.eqb_spec cur 0).
    + rewrite next_value by lia. destruct (Z.eqb_spec (n - 1 + 1) n); lia.
    + rewrite next_value by lia. destruct (Z.eqb_spec (cur - 1 + 1) n); lia.
  - rewrite next_value by lia. destruct (Z.eqb_spec (n - 1 + 1) n); lia.
  - rewrite back_value by lia. reflexivity.
Qed.

Lemma active_count (a n : nat) (idx : Z) :
  length (List.filter (fun b : bool => b)
            ((fun i => Z.of_nat i =? idx) <$> seq a n))
  = if (Z.of_nat a <=? idx) && (idx <? Z.of_nat (a + n)) then 1%nat
    else 0%nat.
Proof.
  revert a. induction n as [|n IH]; intros a.
  - simpl. destruct (Z.leb_spec (Z.of_nat a) idx),
      (Z.ltb_spec idx (Z.of_nat (a + 0))); simpl; lia.
  - cbn [seq fmap list_fmap List.filter]. specialize (IH (S a)).
    change (list_fmap nat bool (λ i : nat, Z.of_nat i =? idx) (seq (S a) n))
      with ((fun i => Z.of_nat i =? idx) <$> seq (S a) n).
    destruct (Z.eqb_spec (Z.of_nat a) idx) as [Heq|Hne]; cbn [length];
      rewrite IH;
      destruct (Z.leb_spec (Z.of_nat (S a)) idx),
        (Z.ltb_spec idx (Z.of_nat (S a + n))),
        (Z.leb_spec (Z.of_nat a) idx),
        (Z.ltb_spec idx (Z.of_nat (a + S n))); simpl; lia.
Qed.

(** X23. [showSlide(idx)] marks exactly one slide active when [idx]
    indexes a slide and none when it does not (a dot beyond the last
    slide), and it hides the back button exactly on the first slide. *)
Theorem showSlide_marks_one_slide (n : nat) (idx : Z) :
  (0 <= idx < Z.of_nat n ->
   length (List.filter (fun b : bool => b) (active n idx)) = 1%nat)
  /\ (Z.of_nat n <= idx ->
      length (List.filter (fun b : bool => b) (active n idx)) = 0%nat)
  /\ (back_display idx = "none" <-> idx = 0).
Proof.
  unfold active. rewrite active_count. repeat split.
  - intros H. destruct (Z.leb_spec (Z.of_nat 0) idx),
      (Z.ltb_spec idx (Z.of_nat (0 + n))); simpl; lia.
  - intros H. destruct (Z.leb_spec (Z.of_nat 0) idx),
      (Z.ltb_spec idx (Z.of_nat (0 + n))); simpl; lia.
  - unfold back_display. destruct (Z.eqb_spec idx 0); [done|discriminate].
  - intros ->. reflexivity.
Qed.

End SliderProps.

Section BlobProps.

Import Blob.

Local Open Scope Z_scope.

Lemma tick_inv (len : Z) (s : state) :
  2 <= len -> on_keyframes len s -> on_keyframes len (tick len s).
Proof.
  intros Hlen (Hrange & Hdir & H0 & Hlast). unfold on_keyframes, tick.
  cbn [frame direction].
  destruct (Z.eqb_spec (frame s + direction s) (len - 1)),
    (Z.eqb_spec (frame s + direction s) 0); cbn [orb]; lia.
Qed.

Lemma ticks_inv (len : Z) (k : nat) (s : state) :
  2 <= len -> on_keyframes len s -> on_keyframes len (ticks len k s).
Proof.
  intros Hlen. revert s. induction k as [|k IH]; intros s Hs; [done|].
  simpl. by apply IH, tick_inv.
Qed.

(** X24. The blob animation never runs off its keyframes: after any
    number of interval callbacks the frame is 0, 1 or 2 and the path
    written to the [d] attribute is one of the three keyframes; the
    sequence of frames repeats every four callbacks. *)
Theorem blob_frame_stays_on_keyframes (k : nat) :
  let s := ticks (Z.of_nat (length keyframes)) k start in
  0 <= frame s <= 2
  /\ (exists path : string, shown s = Some path /\ path ∈ keyframes)
  /\ ticks (Z.of_nat (length keyframes)) (k + 4) start = s.
Proof.
  cbn zeta.
  assert (Hinv : on_keyframes 3 (ticks 3 k start)).
  { apply ticks_inv; [lia|]. unfold on_keyframes, start. simpl. lia. }
  change (Z.of_nat (length keyframes)) with 3.
  destruct Hinv as (Hrange & _). split; [lia|]. split.
  - unfold shown. destruct (Z.ltb_spec (frame (ticks 3 k start)) 0); [lia|].
    assert (Hcases : frame (ticks 3 k start) = 0
                     \/ frame (ticks 3 k start) = 1
                     \/ frame (ticks 3 k start) = 2) by lia.
    destruct Hcases as [-> | [-> | ->]]; eexists; (split; [reflexivity|]).
    + apply list_elem_of_here.
    + apply list_elem_of_further, list_elem_of_here.
    + do 2 apply list_elem_of_further. apply list_elem_of_here.
  - assert (Hperiod : forall s, on_keyframes 3 s -> ticks 3 4 s = s).
    { intros [f d] (Hr & Hd & H0 & H2). cbn [frame direction] in *.
      assert (Hcases : (f = 0 /\ d = 1) \/ (f = 1 /\ d = 1)
                       \/ (f = 1 /\ d = -1) \/ (f = 2 /\ d = -1)) by lia.
      destruct Hcases as [[-> ->]|[[-> ->]|[[-> ->]|[-> ->]]]];
        reflexivity. }
    assert (Hsplit : forall a b s, ticks 3 (a + b) s = ticks 3 b (ticks 3 a s)).
    { intros a. induction a as [|a IH]; intros b s; [done|].
      simpl. apply IH. }
    rewrite Hsplit. apply Hperiod, ticks_inv; [lia|].
    unfold on_keyframes, start. simpl. lia.
Qed.

End BlobProps.

Section ParallaxProps.

Import Parallax.

Context {A : Type}.

Lemma step_inv (s : state A) (e : event A) :
  one_request s -> one_request (step s e).
Proof.
  unfold one_request. destruct s as [y t r p], e as [y'|]; simpl.
  - destruct t; simpl; intros ->; reflexivity.
  - destruct r as [|r]; simpl; [done|]. destruct t; intros [= ->]; done.
Qed.

Lemma run_inv (s : state A) (es : list (event A)) :
  one_request s -> one_request (run s es).
Proof.
  unfold run. revert s. induction es as [|e es IH]; intros s Hs; [done|].
  simpl. by apply IH, step_inv.
Qed.

(** X25. However the scroll events and animation frames interleave, the
    parallax script has at most one animation frame requested, one exactly
    while [ticking] is set; and a scroll event followed by a frame always
    paints with the position of that last scroll. *)
Theorem parallax_requests_one_frame (zero : A) (es : list (event A)) :
  (requested (run (start zero) es) <= 1)%nat
  /\ (ticking (run (start zero) es) = true
      <-> requested (run (start zero) es) = 1%nat)
  /\ (forall y : A,
        painted (run (start zero) (es ++ [Scroll y; Frame])) = Some y).
Proof.
  assert (Hinv : one_request (run (start zero) es)).
  { apply run_inv. reflexivity. }
  unfold one_request in Hinv. repeat split.
  - rewrite Hinv. destruct (ticking _); lia.
  - intros Ht. by rewrite Hinv, Ht.
  - intros Hr. rewrite Hinv in Hr. by destruct (ticking _).
  - intros y. unfold run in *. rewrite fold_left_app.
    destruct (fold_left step es (start zero)) as [y0 t r p].
    simpl in Hinv. simpl. destruct t; simpl; subst r; reflexivity.
Qed.

End ParallaxProps.

Section WorkFilterProps.

Import WorkFilter.

Lemma prefix_occurs (w s : string) :
  String.prefix w s = true <-> exists post : string, s = w +:+ post.
Proof.
  revert w. induction s as [|d s IH]; intros [|c w]; simpl.
  - split; [intros _; exists ""; reflexivity|done].
  - split; [done|]. intros [post Hpost]. discriminate Hpost.
  - split; [intros _; exists (String d s); reflexivity|done].
  - destruct (Ascii.ascii_dec c d) as [->|Hne].
    + rewrite IH. split; intros [post Hpost]; exists post.
      * by rewrite append_cons, Hpost.
      * rewrite append_cons in Hpost. by injection Hpost.
    + split; [done|]. intros [post Hpost].
      rewrite append_cons in Hpost. injection Hpost as <- _. done.
Qed.

Lemma includes_occurs (s w : string) :
  includes s w = true <-> occurs_in w s.
Proof.
  unfold occurs_in. induction s as [|c s IH].
  - cbn [includes]. rewrite orb_false_r, prefix_occurs. split.
    + intros [post Hpost]. by exists "", post.
    + intros (pre & post & Heq). destruct pre; [by exists post|].
      rewrite append_cons in Heq. discriminate Heq.
  - cbn [includes]. rewrite orb_true_iff, prefix_occurs, IH. split.
    + intros [[post Hpost]|(pre & post & Heq)].
      * by exists "", post.
      * exists (String c pre), post. by rewrite append_cons, Heq.
    + intros (pre & post & Heq). destruct pre as [|d pre].
      * left. by exists post.
      * right. rewrite append_cons in Heq. injection Heq as _ Heq.
        by exists pre, post.
Qed.

Lemma toLowerCase_app (s1 s2 : string) :
  JsString.toLowerCase (s1 +:+ s2)
  = JsString.toLowerCase s1 +:+ JsString.toLowerCase s2.
Proof.
  induction s1 as [|c s1 IH]; [reflexivity|].
  rewrite append_cons. cbn [JsString.toLowerCase].
  by rewrite IH, append_cons.
Qed.

Lemma occurs_in_join (c : string) (l : list string) :
  c ∈ l -> occurs_in c (join_space l).
Proof.
  induction l as [|x l IH]; [by intros ?%elem_of_nil|].
  intros [->|Hin]%elem_of_cons.
  - destruct l as [|y l]; cbn [join_space].
    + exists "", "". by rewrite append_nil_r.
    + by exists "", (" " +:+ join_space (y :: l)).
  - destruct l as [|y l]; [by apply elem_of_nil in Hin|].
    destruct (IH Hin) as (pre & post & Heq).
    cbn [join_space] in *. change (join_space (y :: l)) with
      (match l with [] => y | _ => y +:+ " " +:+ join_space l end) in *.
    exists (x +:+ " " +:+ pre), post.
    rewrite Heq. by rewrite !append_assoc.
Qed.

Lemma occurs_in_lower (w s : string) :
  occurs_in w s ->
  occurs_in (JsString.toLowerCase w) (JsString.toLowerCase s).
Proof.
  intros (pre & post & ->).
  exists (JsString.toLowerCase pre), (JsString.toLowerCase post).
  by rewrite !toLowerCase_app.
Qed.

(** X26. The category filter of the work page compares by substring: a
    work item stays displayed exactly when the filter value is "all" or
    occurs somewhere in the item's [data-category], the lower-cased
    categories joined by spaces. So every Project is displayed under the
    lower-cased name of each of its categories, and the empty filter value
    displays everything. *)
Theorem work_filter_is_by_substring :
  (forall (f d : string),
      displayed f d = true <-> f = "all" \/ occurs_in f d)
  /\ (forall (p : Project.t) (c : string),
        c ∈ Project.categories p ->
        displayed (JsString.toLowerCase c) (data_category p) = true)
  /\ (forall d : string, displayed "" d = true).
Proof.
  assert (Hspec : forall f d,
             displayed f d = true <-> f = "all" \/ occurs_in f d).
  { intros f d. unfold displayed.
    by rewrite orb_true_iff, bool_decide_eq_true, includes_occurs. }
  split; [exact Hspec|]. split.
  - intros p c Hc. apply Hspec. right.
    by apply occurs_in_lower, occurs_in_join.
  - intros d. apply Hspec. right. by exists "", d.
Qed.

End WorkFilterProps.

(** ** The properties above on concrete requests *)

Section Witnesses.

Import Scenario Cases.

Lemma old_title_projects :
  projects (store_with old_title)
  = <[1%positive := old_title]> (∅ : gmap positive Project.t).
Proof. reflexivity. Qed.

Lemma old_title_keyed : keyed_by_id (projects (store_with old_title)).
Proof.
  rewrite old_title_projects.
  intros k p [[<- <-]|[_ H]]%lookup_insert_Some; [reflexivity|].
  rewrite lookup_empty in H. discriminate H.
Qed.

Lemma old_title_unique : slugs_unique (projects (store_with old_title)).
Proof.
  rewrite old_title_projects.
  intros k1 k2 p1 p2 [[<- _]|[_ H1]]%lookup_insert_Some
    [[<- _]|[_ H2]]%lookup_insert_Some _;
    [reflexivity|rewrite lookup_empty in H2; discriminate H2
    |rewrite lookup_empty in H1; discriminate H1
    |rewrite lookup_empty in H1; discriminate H1].
Qed.

Lemma getProject_by_id_witness :
  run_chain ProjectQueries.get_project env_up (store_with old_title)
            (no_credentials (WellFormed 1) tt)
  = (Responded (ProjectController.ok_project 200 old_title),
     store_with old_title)
  /\ run_chain ProjectQueries.get_project env_up (store_with old_title)
               (no_credentials (WellFormed 7) tt)
     = (Responded (failure 404 ("Project not found with id of "
                                +:+ ProjectController.oid_text 7)),
        store_with old_title)
  /\ run_chain ProjectQueries.get_project env_up (store_with old_title)
               (no_credentials (Malformed "featured-soon") tt)
     = (Responded (failure 404 "Resource not found"), store_with old_title).
Proof.
  split; [|split].
  - apply (proj1 (getProject_by_id env_up (store_with old_title)
                    (no_credentials (WellFormed 1) tt)) 1%positive old_title);
      reflexivity.
  - apply (proj1 (proj2 (getProject_by_id env_up (store_with old_title)
                           (no_credentials (WellFormed 7) tt))) 7%positive);
      reflexivity.
  - apply (proj2 (proj2 (getProject_by_id env_up (store_with old_title)
                           (no_credentials (Malformed "featured-soon") tt)))
                 "featured-soon"); reflexivity.
Defined.

Lemma post_duplicate_slug_is_400_witness :
  run_chain ProjectController.post_project env_up store_with_ai_ops
            (bearer "tok-ada" Absent ai_ops)
  = (Responded (failure 400 "Duplicate field value entered"),
     store_with_ai_ops).
Proof.
  apply (post_duplicate_slug_is_400 env_up store_with_ai_ops
           (bearer "tok-ada" Absent ai_ops) ada 1%positive ai_ops_project).
  - apply ada_is_authenticated. reflexivity.
  - reflexivity.
  - vm_compute. reflexivity.
  - reflexivity.
  - vm_compute. reflexivity.
Defined.

Lemma created_project_is_owned_and_bounded_witness :
  exists (u : User.t) (p : Project.t),
    user (by_ada Absent ai_ops) = Resolved (Some u)
    /\ ProjectController.ok_project 201 ai_ops_project
       = ProjectController.ok_project 201 p
    /\ projects store_with_ai_ops !! Project.id p = Some p
    /\ Project.createdBy p = User.id u
    /\ Project.title p
       = JsString.trim (default "" (Project.b_title
                                      (body (by_ada Absent ai_ops))))
    /\ Project.title p ≠ "" /\ (String.length (Project.title p) <= 100)%nat
    /\ Project.shortDescription p ≠ ""
    /\ (String.length (Project.shortDescription p) <= 200)%nat
    /\ Project.client p ≠ "" /\ Project.description p ≠ ""
    /\ Project.thumbnailImage p ≠ "".
Proof.
  apply (created_project_is_owned_and_bounded env_up initial_store
           (by_ada Absent ai_ops)
           (ProjectController.ok_project 201 ai_ops_project)
           store_with_ai_ops).
  vm_compute. reflexivity.
Defined.

Lemma create_then_get_witness :
  exists p : Project.t,
    ProjectController.ok_project 201 ai_ops_project
    = ProjectController.ok_project 201 p
    /\ (forall (B : Type) (env' : Env) (req' : Request B),
          param_id req' = WellFormed (Project.id p) ->
          ProjectQueries.getProject env' store_with_ai_ops req'
          = Send (ProjectController.ok_project 200 p) store_with_ai_ops)
    /\ (forall (k : ObjectId) (q : Project.t),
          projects initial_store !! k = Some q ->
          projects store_with_ai_ops !! k = Some q).
Proof.
  apply (create_then_get env_up initial_store (by_ada Absent ai_ops)
           (ProjectController.ok_project 201 ai_ops_project)
           store_with_ai_ops).
  vm_compute. reflexivity.
Defined.

Lemma delete_then_get_witness :
  ProjectController.ok_empty = ProjectController.ok_empty
  /\ (forall (B : Type) (env' : Env) (req' : Request B),
        param_id req' = WellFormed 1%positive ->
        ProjectQueries.getProject env' initial_store req'
        = Fail (ProjectController.not_found (WellFormed 1)) initial_store)
  /\ (forall k' : ObjectId,
        k' ≠ 1%positive ->
        projects initial_store !! k' = projects (store_with old_title) !! k')
  /\ users initial_store = users (store_with old_title)
  /\ contacts initial_store = contacts (store_with old_title).
Proof.
  apply (delete_then_get env_up (store_with old_title)
           (by_ada (WellFormed 1) rename) ProjectController.ok_empty
           initial_store 1%positive).
  - exact old_title_keyed.
  - reflexivity.
  - vm_compute. reflexivity.
Defined.

Lemma update_writes_the_body_only_witness :
  exists p' : Project.t,
    ProjectController.ok_project 200 restyled
    = ProjectController.ok_project 200 p'
    /\ projects store_restyled !! 1%positive = Some p'
    /\ Project.id p' = Project.id old_title
    /\ Project.createdAt p' = Project.createdAt old_title
    /\ Project.updatedAt p' = now env_up
    /\ Project.title p' = "Old Title"
    /\ Project.slug p' = "old-title"
    /\ Project.client p' = "Globex"
    /\ Project.description p' = "A description"
    /\ Project.shortDescription p' = "Short"
    /\ Project.categories p' = ["Web"]
    /\ Project.technologies p' = []
    /\ Project.features p' = []
    /\ Project.thumbnailImage p' = "/uploads/projects/project-1.png"
    /\ Project.galleryImages p' = []
    /\ Project.projectUrl p' = Some "https://example.com/globex"
    /\ Project.testimonial_ p' = None
    /\ Project.featured p' = true
    /\ Project.completionDate p' = None
    /\ Project.createdBy p' = 1%positive
    /\ (forall k' : ObjectId,
          k' ≠ 1%positive ->
          projects store_restyled !! k'
          = projects (store_with old_title) !! k')
    /\ users store_restyled = users (store_with old_title)
    /\ contacts store_restyled = contacts (store_with old_title)
    /\ outbox store_restyled = outbox (store_with old_title)
    /\ uploads store_restyled = uploads (store_with old_title).
Proof.
  apply (update_writes_the_body_only env_up (store_with old_title)
           (by_ada (WellFormed 1) restyle)
           (ProjectController.ok_project 200 restyled) store_restyled
           1%positive old_title).
  - reflexivity.
  - reflexivity.
  - vm_compute. reflexivity.
Defined.

Lemma mutations_keep_the_slug_index_witness :
  slugs_unique
    (projects (step_store (ProjectController.updateProject env_up
                             (store_with old_title)
                             (by_ada (WellFormed 1) rename))))
  /\ keyed_by_id
       (projects (step_store (ProjectController.updateProject env_up
                                (store_with old_title)
                                (by_ada (WellFormed 1) rename)))).
Proof.
  apply (mutations_keep_the_slug_index env_up (store_with old_title)
           (by_ada (WellFormed 1) rename) ProjectController.updateProject).
  - apply list_elem_of_further, list_elem_of_here.
  - exact old_title_unique.
  - exact old_title_keyed.
Defined.

Lemma post_invalid_body_is_400_witness :
  exists text : string,
    run_chain ProjectController.post_project env_up initial_store
              (bearer "tok-ada" Absent ai_ops_long_title)
    = (Responded (failure 400 text), initial_store)
    /\ (forall m : string,
          m ∈ ProjectModel.validate_document
                (ProjectModel.cast
                   (ProjectController.set_createdBy
                      (body (bearer "tok-ada" Absent ai_ops_long_title))
                      (User.id ada)))
          -> occurs_in m text)
    /\ (forall m : string,
          ProjectModel.validate_document
            (ProjectModel.cast
               (ProjectController.set_createdBy
                  (body (bearer "tok-ada" Absent ai_ops_long_title))
                  (User.id ada)))
          = [m] -> text = m)
    /\ (forall t : string,
          Project.b_title (body (bearer "tok-ada" Absent ai_ops_long_title))
          = Some t ->
          (100 < String.length (JsString.trim t))%nat ->
          "Title cannot be more than 100 characters"
          ∈ ProjectModel.validate_document
              (ProjectModel.cast
                 (ProjectController.set_createdBy
                    (body (bearer "tok-ada" Absent ai_ops_long_title))
                    (User.id ada)))).
Proof.
  apply (post_invalid_body_is_400 env_up initial_store
           (bearer "tok-ada" Absent ai_ops_long_title) ada).
  - apply ada_is_authenticated. reflexivity.
  - reflexivity.
  - vm_compute. discriminate.
Defined.

(** The validators on concrete bodies: empty arrays pass [required], a
    body without any path is answered with the messages of the five
    required strings, last path of the schema first, and a category
    outside the enum is named with its index. *)
Example post_empty_arrays_is_created :
  exists (p : Project.t) (st' : Store),
    run_chain ProjectController.post_project env_up initial_store
              (bearer "tok-ada" Absent empty_arrays)
    = (Responded (ProjectController.ok_project 201 p), st')
    /\ Project.categories p = [] /\ Project.technologies p = [].
Proof.
  eexists. eexists. split; [vm_compute; reflexivity|].
  split; reflexivity.
Qed.

Example put_empty_technologies_is_stored :
  exists (p : Project.t) (st' : Store),
    run_chain ProjectController.put_project env_up (store_with old_title)
              (bearer "tok-ada" (WellFormed 1) empty_technologies)
    = (Responded (ProjectController.ok_project 200 p), st')
    /\ Project.technologies p = []
    /\ projects st' !! 1%positive = Some p.
Proof.
  eexists. eexists. split; [vm_compute; reflexivity|].
  split; reflexivity.
Qed.

Example post_empty_body_messages :
  run_chain ProjectController.post_project env_up initial_store
            (bearer "tok-ada" Absent Project.empty_payload)
  = (Responded
       (failure 400
          ("Thumbnail image is required,Short description is required,"
           +:+ "Project description is required,Client name is required,"
           +:+ "Project title is required")), initial_store).
Proof. vm_compute. reflexivity. Qed.

Example post_bogus_category_message :
  run_chain ProjectController.post_project env_up initial_store
            (bearer "tok-ada" Absent bogus_category)
  = (Responded
       (failure 400
          "`Bogus` is not a valid enum value for path `categories.1`."),
     initial_store).
Proof. vm_compute. reflexivity. Qed.

Lemma protect_header_before_cookie_witness :
  Auth.protect env_up initial_store bare_bearer
  = Fail Auth.not_authorized initial_store
  /\ Auth.protect env_up initial_store cookie_only
     = Next (Auth.with_user cookie_only
               (Resolved (users initial_store !! 1%positive)))
            initial_store.
Proof.
  split.
  - apply (proj1 (protect_header_before_cookie env_up initial_store
                    bare_bearer) "Bearer").
    + reflexivity.
    + reflexivity.
    + left. reflexivity.
  - apply (proj2 (protect_header_before_cookie env_up initial_store
                    cookie_only) "tok-ada" 1%positive).
    + exact I.
    + reflexivity.
    + discriminate.
    + reflexivity.
Defined.

Lemma gate_is_sound_witness :
  initial_store = initial_store
  /\ (Unanswered = Unanswered ->
      exists (tok : string) (uid : ObjectId) (u : User.t),
        Auth.extract_token (bearer "tok-ada" Absent tt) = Some tok
        /\ tok ≠ ""
        /\ jwt_verify env_up tok = Some uid
        /\ users initial_store !! uid = Some u
        /\ User.role u ∈ ["admin"])
  /\ (forall res : Response,
        Unanswered = Responded res ->
        success res = false
        /\ (status res = 401 \/ status res = 403 \/ status res = 500)).
Proof.
  apply (gate_is_sound env_up initial_store (bearer "tok-ada" Absent tt)
           ["admin"] Unanswered initial_store).
  vm_compute. reflexivity.
Defined.


Lemma ill_formed_contact_is_dropped_witness :
  ContactController.submitContact env_up initial_store (submission blank_name)
  = Send ContactController.problem initial_store.
Proof.
  apply (ill_formed_contact_is_dropped env_up initial_store
           (submission blank_name)).
  vm_compute. reflexivity.
Defined.

Lemma submitContact_keeps_contacts_clean_witness :
  (forall k c,
      contacts (step_store (ContactController.submitContact env_up
                              initial_store (submission jane))) !! k
      = Some c ->
      contact_as_submitted c)
  /\ (forall k c,
        contacts initial_store !! k = Some c ->
        contacts (step_store (ContactController.submitContact env_up
                                initial_store (submission jane))) !! k
        = Some c).
Proof.
  apply (submitContact_keeps_contacts_clean env_up initial_store
           (submission jane)).
  intros k c H. vm_compute in H. discriminate H.
Defined.

Lemma email_pattern_shape_witness :
  exists (local domain : string),
    "jane.doe@example.com" = local +:+ "@" +:+ domain
    /\ local ≠ "" /\ domain ≠ ""
    /\ JsString.every address_unit local = true
    /\ JsString.every address_unit domain = true
    /\ address_unit "@" = false.
Proof.
  apply (email_pattern_shape "jane.doe@example.com").
  vm_compute. reflexivity.
Defined.

Lemma stored_email_is_normalised_witness :
  (exists e : string,
      ContactModel.b_email (body (submission jane_shouting)) = Some e
      /\ "jane.doe@example.com" = JsString.toLowerCase (JsString.trim e))
  /\ JsString.every email_unit "jane.doe@example.com" = true.
Proof.
  apply (stored_email_is_normalised env_up initial_store
           (submission jane_shouting) 1%positive
           (ContactController.newContact env_up initial_store jane_shouting)).
  - reflexivity.
  - vm_compute. reflexivity.
Defined.

Lemma slider_index_stays_in_range_witness :
  0 <= Slider.clicks 3 2 [Slider.NextClick; Slider.DotClick 1;
                          Slider.BackClick; Slider.BackClick] < 3.
Proof.
  apply (slider_index_stays_in_range 3 2).
  - lia.
  - lia.
  - repeat constructor.
Defined.

Lemma slider_next_and_back_witness :
  Slider.on_click 3 (Slider.on_click 3 2 Slider.NextClick) Slider.BackClick
  = 2
  /\ Slider.on_click 3 (Slider.on_click 3 2 Slider.BackClick)
                     Slider.NextClick = 2
  /\ Slider.on_click 3 (3 - 1) Slider.NextClick = 0
  /\ Slider.on_click 3 0 Slider.BackClick = 3 - 1.
Proof. apply (slider_next_and_back 3 2); lia. Defined.

Lemma showSlide_marks_one_slide_witness :
  length (List.filter (fun b : bool => b) (Slider.active 3 1)) = 1%nat
  /\ length (List.filter (fun b : bool => b) (Slider.active 3 5)) = 0%nat.
Proof.
  split.
  - apply (proj1 (showSlide_marks_one_slide 3 1)). lia.
  - apply (proj1 (proj2 (showSlide_marks_one_slide 3 5))). lia.
Defined.

Lemma work_filter_is_by_substring_witness :
  WorkFilter.displayed (JsString.toLowerCase "AI")
                       (WorkFilter.data_category ai_ops_project) = true.
Proof.
  apply (proj1 (proj2 work_filter_is_by_substring) ai_ops_project "AI").
  apply list_elem_of_here.
Defined.

End Witnesses.
